(** * gotm: per-flow head sampling of captured packets

    A shallow embedding of [main.go]: the capture loop of [doSniff]
    (five-tuple extraction, flow table, sampling decision, periodic
    sweep and counter flush) and [renamePcap].

    The loop of [doSniff] is embedded as a state transformer
    [sniffStep] over a [Worker] record that holds the local variables of
    the function together with what the loop sends to the outside: the
    frames put on [writerchan], the log lines and the metric updates.
    What the loop reads from the outside (the frame, the decoded layers,
    the clock, the NIC statistics) is the [Input] of an iteration.

    One worker is modelled. The channel is taken to have room, so a
    send does not block; the packages [gopacket], [pcap], [time], [os]
    and [path/filepath] are outside the repository and enter through
    the values they hand to the code. *)

From Stdlib Require Import ZArith Lia Strings.Byte Strings.Ascii.
From stdpp Require Import base option list gmap strings pretty.

Local Open Scope Z_scope.

(** ** Machine integers

    [uint] is 64 bits wide here: [LARGE_FLOW_SIZE] is compared with a
    [uint], which only compiles where [uint] holds 2^34. *)

Definition wrap (x : Z) : Z := x mod 2 ^ 64.

Definition wrapInt (x : Z) : Z := (x + 2 ^ 63) mod 2 ^ 64 - 2 ^ 63.

Definition maxDuration : Z := 2 ^ 63 - 1.
Definition minDuration : Z := - 2 ^ 63.

(** ** Constants of [main.go] *)

Definition MAX_ETHERNET_MTU : Z := 9216.
Definition MINIMUM_IP_PACKET_SIZE : Z := 58.
Definition LARGE_FLOW_SIZE : Z := 1024 * 1024 * 1024 * 16.

(** ** Time

    A [time.Time] taken with [time.Now()] carries a monotonic clock
    reading in nanoseconds, and [Sub] of two such values is the
    difference of the readings, saturated to the range of
    [time.Duration] (an [int64] of nanoseconds). *)

Definition Time : Type := Z.
Definition Duration : Type := Z.

Definition time_Sub (t u : Time) : Duration :=
  Z.max minDuration (Z.min maxDuration (t - u)).

(** ** The flags read by the capture loop and by the file manager *)

Record Config := {
  packetTimeInterval : Duration;
  flowTimeout : Duration;
  flowByteCutoff : Z;
  flowPacketCutoff : Z;
  writeCompressed : bool
}.

(** ** Data model *)

(** [gopacket.Flow]: an endpoint type and the raw bytes of the source
    and of the destination endpoint. *)
Record Flow := {
  flow_typ : Z;
  flow_src : list Byte.byte;
  flow_dst : list Byte.byte
}.

Record FiveTuple := {
  proto : Z;
  networkFlow : Flow;
  transportFlow : Flow
}.

Record trackedFlow := {
  packets : Z;
  bytecount : Z;
  last : Time;
  logged : bool
}.

(** [gopacket.CaptureInfo], carried through unchanged. *)
Record CaptureInfo := {
  ci_Timestamp : Z;
  ci_CaptureLength : Z;
  ci_Length : Z;
  ci_InterfaceIndex : Z
}.

Record PcapFrame := {
  ci : CaptureInfo;
  data : list Byte.byte
}.

(** Zero values. *)
Definition zeroFlow : Flow := {| flow_typ := 0; flow_src := []; flow_dst := [] |}.
Definition zeroFiveTuple : FiveTuple :=
  {| proto := 0; networkFlow := zeroFlow; transportFlow := zeroFlow |}.
Definition zeroTrackedFlow : trackedFlow :=
  {| packets := 0; bytecount := 0; last := 0; logged := false |}.

(** Keys of a Go map are compared with [==] on every field. *)
#[global] Instance byte_eq_dec : EqDecision Byte.byte := Byte.byte_eq_dec.
#[global] Instance byte_countable : Countable Byte.byte :=
  inj_countable Byte.to_N Byte.of_N Byte.of_to_N.

#[global] Instance Flow_eq_dec : EqDecision Flow.
Proof. solve_decision. Defined.
#[global] Instance Flow_countable : Countable Flow :=
  inj_countable'
    (λ f, (flow_typ f, flow_src f, flow_dst f))
    (λ t, {| flow_typ := t.1.1; flow_src := t.1.2; flow_dst := t.2 |})
    (λ f, match f with Build_Flow _ _ _ => eq_refl end).

#[global] Instance FiveTuple_eq_dec : EqDecision FiveTuple.
Proof. solve_decision. Defined.
#[global] Instance FiveTuple_countable : Countable FiveTuple :=
  inj_countable'
    (λ f, (proto f, networkFlow f, transportFlow f))
    (λ t, {| proto := t.1.1; networkFlow := t.1.2; transportFlow := t.2 |})
    (λ f, match f with Build_FiveTuple _ _ _ => eq_refl end).

(** ** Frame decoder (lines 221-257)

    The layers the parser of [doSniff] is built with, and the fields the
    loop reads from the layer structs after [DecodeLayers]. *)

Inductive LayerType :=
  | LayerTypeEthernet
  | LayerTypeDot1Q
  | LayerTypeIPv4
  | LayerTypeIPv6
  | LayerTypeTCP
  | LayerTypeUDP.

#[global] Instance LayerType_eq_dec : EqDecision LayerType.
Proof. solve_decision. Defined.

Record Layers := {
  ip4_Protocol : Z;
  ip4_NetworkFlow : Flow;
  ip6_NextHeader : Z;
  ip6_NetworkFlow : Flow;
  tcp_TransportFlow : Flow;
  udp_TransportFlow : Flow
}.

(** One pass of the [switch] on a decoded layer type. *)
Definition setLayer (L : Layers) (flow : FiveTuple) (layerType : LayerType) : FiveTuple :=
  match layerType with
  | LayerTypeIPv6 =>
      {| proto := ip6_NextHeader L;
         networkFlow := ip6_NetworkFlow L;
         transportFlow := transportFlow flow |}
  | LayerTypeIPv4 =>
      {| proto := ip4_Protocol L;
         networkFlow := ip4_NetworkFlow L;
         transportFlow := transportFlow flow |}
  | LayerTypeUDP =>
      {| proto := proto flow;
         networkFlow := networkFlow flow;
         transportFlow := udp_TransportFlow L |}
  | LayerTypeTCP =>
      {| proto := proto flow;
         networkFlow := networkFlow flow;
         transportFlow := tcp_TransportFlow L |}
  | LayerTypeEthernet | LayerTypeDot1Q => flow
  end.

(** [var flow FiveTuple; for _, layerType := range decoded { ... }] *)
Definition decodeFlow (L : Layers) (decoded : list LayerType) : FiveTuple :=
  fold_left (setLayer L) decoded zeroFiveTuple.

(** The layer that [DecodeLayers] may decode after a given one: the
    parser follows each layer's [NextLayerType] and stops at a type it
    has no decoder for. Ethernet and 802.1Q name their payload by
    EtherType, IPv4 and IPv6 by protocol number; no layer of the parser
    follows TCP or UDP. *)
Definition nextLayer (a b : LayerType) : bool :=
  match a, b with
  | (LayerTypeEthernet | LayerTypeDot1Q),
    (LayerTypeDot1Q | LayerTypeIPv4 | LayerTypeIPv6) => true
  | (LayerTypeIPv4 | LayerTypeIPv6),
    (LayerTypeIPv4 | LayerTypeIPv6 | LayerTypeTCP | LayerTypeUDP) => true
  | _, _ => false
  end.

Fixpoint chained (a : LayerType) (rest : list LayerType) : bool :=
  match rest with
  | [] => true
  | b :: rest' => nextLayer a b && chained b rest'
  end.

(** What [DecodeLayers] can leave in [decoded]: nothing, or a chain
    that starts at the parser's first layer, Ethernet. *)
Definition parserChain (decoded : list LayerType) : bool :=
  match decoded with
  | [] => true
  | a :: rest => bool_decide (a = LayerTypeEthernet) && chained a rest
  end.

(** ** The capture loop of [doSniff] (lines 216-337) *)

(** [pcap.Stats], as returned by [handle.Stats()]. *)
Record PcapStats := {
  PacketsReceived : Z;
  PacketsDropped : Z;
  PacketsIfDropped : Z
}.

(** What one iteration reads from outside the worker. A run is the list
    of the iterations the worker completes; a read error other than EOF
    and an error of [handle.Stats()] end the process and so the run. *)
Record Input := {
  in_data : list Byte.byte;       (* packetData, line 232 *)
  in_ci : CaptureInfo;            (* ci, line 232 *)
  in_layers : Layers;             (* the layer structs after DecodeLayers *)
  in_decoded : list LayerType;    (* decoded, line 241 *)
  in_now : Time;                  (* time.Now(), line 266 *)
  in_stats : PcapStats;           (* handle.Stats(), line 289 *)
  in_since : Time;                (* the clock read by time.Since, line 293 *)
  in_cleanup : Time;              (* time.Now(), line 294 *)
  in_done : Time                  (* the clock read by time.Since, line 312 *)
}.

Inductive LogLine :=
  | LogLargeFlow (flow : FiveTuple)                               (* line 282 *)
  | LogSweep (flows removed bytes pkts output : Z) (st : PcapStats). (* line 307 *)

#[global] Instance PcapStats_eq_dec : EqDecision PcapStats.
Proof. solve_decision. Defined.
#[global] Instance LogLine_eq_dec : EqDecision LogLine.
Proof. solve_decision. Defined.

(** The metrics of one worker; every value the loop hands to the
    registry is an integer (converted to [float64], which is exact below
    2^53), recorded here as that integer. [mFlowSize] lists the
    observations of the histogram, oldest first; [mExpiredDurTotal] is
    kept in nanoseconds. *)
Record Metrics := {
  mActiveFlows : Z;
  mExpired : Z;
  mExpiredDurTotal : Duration;
  mBytes : Z;
  mBytesOutput : Z;
  mPackets : Z;
  mOutput : Z;
  mFlows : Z;
  mFlowSize : list Z;
  mReceived : Z;
  mDropped : Z;
  mIfDropped : Z
}.

(** The local variables of [doSniff], then what it has sent out:
    [writerchan] lists the frames sent on the channel, oldest first. *)
Record Worker := {
  seen : gmap FiveTuple trackedFlow;
  totalFlows : Z;
  removedFlows : Z;
  totalBytes : Z;
  outputBytes : Z;
  totalPackets : Z;
  outputPackets : Z;
  lastcleanup : Time;
  speedup : Z;
  writerchan : list PcapFrame;
  logLines : list LogLine;
  metrics : Metrics
}.

Definition zeroMetrics : Metrics :=
  {| mActiveFlows := 0; mExpired := 0; mExpiredDurTotal := 0; mBytes := 0;
     mBytesOutput := 0; mPackets := 0; mOutput := 0; mFlows := 0;
     mFlowSize := []; mReceived := 0; mDropped := 0; mIfDropped := 0 |}.

(** The state at the first iteration; [t0] is [time.Now()] of line 219. *)
Definition newWorker (t0 : Time) : Worker :=
  {| seen := ∅; totalFlows := 0; removedFlows := 0; totalBytes := 0;
     outputBytes := 0; totalPackets := 0; outputPackets := 0;
     lastcleanup := t0; speedup := 0; writerchan := []; logLines := [];
     metrics := zeroMetrics |}.

(** *** Sampler (lines 259-284) *)

(** [uint(len(packetData))] *)
Definition frameLen (i : Input) : Z := wrap (Z.of_nat (length (in_data i))).

Definition flowOf (i : Input) : FiveTuple := decodeFlow (in_layers i) (in_decoded i).

(** Lines 266-271 on the entry [flw]. *)
Definition touch (now : Time) (pl : Z) (flw : trackedFlow) : trackedFlow :=
  {| last := now;
     packets := wrap (packets flw + 1);
     bytecount :=
       if MINIMUM_IP_PACKET_SIZE <? pl
       then wrap (bytecount flw + (pl - MINIMUM_IP_PACKET_SIZE))
       else bytecount flw;
     logged := logged flw |}.

(** The test of line 272. *)
Definition underCutoff (cfg : Config) (flw : trackedFlow) : bool :=
  (bytecount flw <? flowByteCutoff cfg) && (packets flw <? flowPacketCutoff cfg).

(** The test of line 281. *)
Definition largeUnlogged (flw : trackedFlow) : bool :=
  bool_decide (logged flw = false) && (LARGE_FLOW_SIZE <? bytecount flw).

Definition markLogged (flw : trackedFlow) : trackedFlow :=
  {| last := last flw; packets := packets flw; bytecount := bytecount flw;
     logged := true |}.

(** [flw], the entry of the frame's flow, after lines 259-271: the
    entry found in the table or a fresh zero one, updated. *)
Definition updated (i : Input) (w : Worker) : trackedFlow :=
  touch (in_now i) (frameLen i) (default zeroTrackedFlow (seen w !! flowOf i)).

(** The frame is sent to the writer (line 280). *)
Definition accepted (cfg : Config) (i : Input) (w : Worker) : bool :=
  underCutoff cfg (updated i w).

(** The large-flow line is logged (line 282). *)
Definition logsLarge (cfg : Config) (i : Input) (w : Worker) : bool :=
  negb (accepted cfg i w) && largeUnlogged (updated i w).

(** [PcapFrame{ci, packetDataCopy}] *)
Definition frameOf (i : Input) : PcapFrame := {| ci := in_ci i; data := in_data i |}.

(** Lines 238-284. [flw] points into the table, so every update of it
    is an update of the entry. *)
Definition track (cfg : Config) (w : Worker) (i : Input) : Worker :=
  let flw := updated i w in
  {| seen := <[flowOf i := if logsLarge cfg i w then markLogged flw else flw]> (seen w);
     totalFlows :=
       match seen w !! flowOf i with
       | None => wrap (totalFlows w + 1)
       | Some _ => totalFlows w
       end;
     removedFlows := removedFlows w;
     totalBytes := wrap (totalBytes w + frameLen i);
     outputBytes :=
       if accepted cfg i w then wrap (outputBytes w + frameLen i) else outputBytes w;
     totalPackets := wrap (totalPackets w + 1);
     outputPackets :=
       if accepted cfg i w then wrap (outputPackets w + 1) else outputPackets w;
     lastcleanup := lastcleanup w;
     speedup := speedup w;
     writerchan :=
       if accepted cfg i w then writerchan w ++ [frameOf i] else writerchan w;
     logLines :=
       if logsLarge cfg i w then logLines w ++ [LogLargeFlow (flowOf i)] else logLines w;
     metrics := metrics w |}.

(** *** Expiry sweep (lines 294-314) *)

(** The entries the [range] over [seen] selects, in the order of the
    iteration (which Go leaves unspecified). *)
Definition expiredFlows (cfg : Config) (now : Time) (table : gmap FiveTuple trackedFlow)
    : list (FiveTuple * trackedFlow) :=
  filter (λ kv, flowTimeout cfg < time_Sub now (last kv.2)) (map_to_list table).

(** [for _, rem := range remove { delete(seen, rem) }] *)
Definition deleteAll (remove : list FiveTuple) (table : gmap FiveTuple trackedFlow)
    : gmap FiveTuple trackedFlow :=
  fold_left (λ m rem, delete rem m) remove table.

Definition sweep (cfg : Config) (w : Worker) (i : Input) : Worker :=
  let now := in_cleanup i in
  let expired := expiredFlows cfg now (seen w) in
  let remove := expired.*1 in
  let table := deleteAll remove (seen w) in
  let m := metrics w in
  {| seen := table;
     totalFlows := totalFlows w;
     removedFlows := wrap (removedFlows w + Z.of_nat (length remove));
     totalBytes := totalBytes w;
     outputBytes := outputBytes w;
     totalPackets := totalPackets w;
     outputPackets := outputPackets w;
     lastcleanup := now;
     speedup := speedup w;
     writerchan := writerchan w;
     logLines :=
       logLines w ++
         [LogSweep (Z.of_nat (size table)) (Z.of_nat (length remove))
            (totalBytes w) (totalPackets w) (outputPackets w) (in_stats i)];
     metrics :=
       {| mActiveFlows := mActiveFlows m;
          mExpired := Z.of_nat (length remove);
          mExpiredDurTotal := mExpiredDurTotal m + time_Sub (in_done i) now;
          mBytes := mBytes m;
          mBytesOutput := mBytesOutput m;
          mPackets := mPackets m;
          mOutput := mOutput m;
          mFlows := mFlows m;
          mFlowSize := mFlowSize m ++ (bytecount <$> expired.*2);
          mReceived := mReceived m;
          mDropped := mDropped m;
          mIfDropped := mIfDropped m |} |}.

(** *** Housekeeping every 5000 frames (lines 286-336) *)

(** The test of line 293. *)
Definition cleanupDue (cfg : Config) (w : Worker) (i : Input) : bool :=
  packetTimeInterval cfg <? time_Sub (in_since i) (lastcleanup w).

(** Lines 316-335: the counters go to the registry and restart at 0. *)
Definition flush (w : Worker) (i : Input) : Worker :=
  let m := metrics w in
  {| seen := seen w;
     totalFlows := 0;
     removedFlows := removedFlows w;
     totalBytes := 0;
     outputBytes := 0;
     totalPackets := 0;
     outputPackets := 0;
     lastcleanup := lastcleanup w;
     speedup := speedup w;
     writerchan := writerchan w;
     logLines := logLines w;
     metrics :=
       {| mActiveFlows := Z.of_nat (size (seen w));
          mExpired := mExpired m;
          mExpiredDurTotal := mExpiredDurTotal m;
          mBytes := mBytes m + totalBytes w;
          mBytesOutput := mBytesOutput m + outputBytes w;
          mPackets := mPackets m + totalPackets w;
          mOutput := mOutput m + outputPackets w;
          mFlows := mFlows m + totalFlows w;
          mFlowSize := mFlowSize m;
          mReceived := PacketsReceived (in_stats i);
          mDropped := PacketsDropped (in_stats i);
          mIfDropped := PacketsIfDropped (in_stats i) |} |}.

Definition setSpeedup (n : Z) (w : Worker) : Worker :=
  {| seen := seen w; totalFlows := totalFlows w; removedFlows := removedFlows w;
     totalBytes := totalBytes w; outputBytes := outputBytes w;
     totalPackets := totalPackets w; outputPackets := outputPackets w;
     lastcleanup := lastcleanup w; speedup := n; writerchan := writerchan w;
     logLines := logLines w; metrics := metrics w |}.

Definition housekeeping (cfg : Config) (w : Worker) (i : Input) : Worker :=
  let n := wrapInt (speedup w + 1) in
  if n =? 5000 then
    let w0 := setSpeedup 0 w in
    flush (if cleanupDue cfg w0 i then sweep cfg w0 i else w0) i
  else setSpeedup n w.

(** One iteration of the loop, and the loop over the frames read until
    EOF. *)
Definition sniffStep (cfg : Config) (w : Worker) (i : Input) : Worker :=
  housekeeping cfg (track cfg w i) i.

Definition sniffFrom (cfg : Config) (w : Worker) (inputs : list Input) : Worker :=
  fold_left (sniffStep cfg) inputs w.

Definition doSniff (cfg : Config) (t0 : Time) (inputs : list Input) : Worker :=
  sniffFrom cfg (newWorker t0) inputs.

(** ** File manager: [renamePcap] (lines 394-415) *)

(** The local time [time.Now()] returns, broken down. *)
Record LocalTime := {
  lt_year : Z;
  lt_month : Z;
  lt_day : Z;
  lt_hour : Z;
  lt_minute : Z;
  lt_second : Z
}.

Fixpoint zeros (n : nat) : string :=
  match n with
  | O => EmptyString
  | S n' => String "0"%char (zeros n')
  end.

(** The decimal digits of [x], after a minus sign if [x] is negative,
    padded with zeros on the left to [width] digits: how [Format] writes
    the numeric fields of a layout. *)
Definition appendInt (x : Z) (width : nat) : string :=
  let digits := pretty (Z.abs_N x) in
  (if x <? 0 then "-" else EmptyString) +:+ zeros (width - String.length digits) +:+ digits.

(** [Format("2006/01/02/2006-01-02T15-04-05.pcap")]: [2006] is the year
    on four digits, [01] the month, [02] the day, [15] the hour of the
    day, [04] the minute and [05] the second, each on two digits; the
    other characters of the layout stand for themselves. *)
Definition formatStamp (t : LocalTime) : string :=
  appendInt (lt_year t) 4 +:+ "/" +:+ appendInt (lt_month t) 2 +:+ "/" +:+
  appendInt (lt_day t) 2 +:+ "/" +:+
  appendInt (lt_year t) 4 +:+ "-" +:+ appendInt (lt_month t) 2 +:+ "-" +:+
  appendInt (lt_day t) 2 +:+ "T" +:+
  appendInt (lt_hour t) 2 +:+ "-" +:+ appendInt (lt_minute t) 2 +:+ "-" +:+
  appendInt (lt_second t) 2 +:+ ".pcap".

(** What [renamePcap] calls in the packages [os] and [path/filepath],
    over a state [FS] of the file system. [fileExists] is not called by
    the code: it says what a path names in a state. *)
Class FileSystem (FS error : Type) := {
  IsNotExist : error → bool;
  MkdirAll : string → Z → FS → option error * FS;
  Rename : string → string → FS → option error * FS;
  Join : string → string → string;
  Dir : string → string;
  fileExists : FS → string → bool
}.

(** What the properties of [renamePcap] take from [os.Rename]: renaming
    a path that names nothing fails with an error that [os.IsNotExist]
    recognises, and after a rename that succeeds the new path names a
    file. *)
Class FileSystemLaws (FS error : Type) `{FileSystem FS error} : Prop := {
  rename_missing : ∀ fs src dst,
    fileExists fs src = false →
    ∃ e fs', Rename src dst fs = (Some e, fs') ∧ IsNotExist e = true;
  rename_moves : ∀ fs src dst fs',
    Rename src dst fs = (None, fs') → fileExists fs' dst = true
}.

(** The result is the error returned ([None] for [nil]), the file
    system after the call and the lines logged. *)
Definition renamePcap {FS error : Type} `{FileSystem FS error}
    (cfg : Config) (now : LocalTime) (tempName outputPath : string) (fs : FS)
    : option error * FS * list string :=
  let datePart := formatStamp now in
  let datePart := if writeCompressed cfg then datePart +:+ ".gz" else datePart in
  let tempName := if writeCompressed cfg then tempName +:+ ".gz" else tempName in
  let newName := Join outputPath datePart in
  match MkdirAll (Dir newName) 511 fs with
  | (Some err, fs1) => (Some err, fs1, [])
  | (None, fs1) =>
      match Rename tempName newName fs1 with
      | (Some err, fs2) =>
          if negb (IsNotExist err) then (Some err, fs2, []) else (None, fs2, [])
      | (None, fs2) =>
          (None, fs2, ["moved " +:+ tempName +:+ " to " +:+ newName])
      end
  end.

(** *** A small file system to run [renamePcap] on

    Paths are compared as strings; a state is the set of the regular
    files and the set of the directories. *)

Inductive ToyError := ENOENT | ENOTDIR | EISDIR.

Record ToyFS := {
  toyFiles : gset string;
  toyDirs : gset string
}.

Fixpoint hasSlash (s : string) : bool :=
  match s with
  | EmptyString => false
  | String c rest => bool_decide (c = "/"%char) || hasSlash rest
  end.

(** The path up to its last slash. *)
Fixpoint toyDir (s : string) : string :=
  match s with
  | EmptyString => EmptyString
  | String c rest => if hasSlash rest then String c (toyDir rest) else EmptyString
  end.

Definition toyMkdirAll (path : string) (perm : Z) (fs : ToyFS) : option ToyError * ToyFS :=
  if decide (path ∈ toyFiles fs)
  then (Some ENOTDIR, fs)
  else (None, {| toyFiles := toyFiles fs; toyDirs := {[path]} ∪ toyDirs fs |}).

Definition toyRename (src dst : string) (fs : ToyFS) : option ToyError * ToyFS :=
  if decide (src ∈ toyFiles fs) then
    if decide (dst ∈ toyDirs fs) then (Some EISDIR, fs)
    else if decide (toyDir dst ∈ toyDirs fs) then
      (None, {| toyFiles := {[dst]} ∪ (toyFiles fs ∖ {[src]}); toyDirs := toyDirs fs |})
    else (Some ENOENT, fs)
  else (Some ENOENT, fs).

#[global] Instance toyFileSystem : FileSystem ToyFS ToyError := {|
  IsNotExist e := match e with ENOENT => true | _ => false end;
  MkdirAll := toyMkdirAll;
  Rename := toyRename;
  Join a b := a +:+ "/" +:+ b;
  Dir := toyDir;
  fileExists fs p := bool_decide (p ∈ toyFiles fs)
|}.

Definition sampleTime : LocalTime :=
  {| lt_year := 2017; lt_month := 3; lt_day := 9;
     lt_hour := 14; lt_minute := 5; lt_second := 7 |}.

Definition toyWith (files : list string) : ToyFS :=
  {| toyFiles := list_to_set files; toyDirs := ∅ |}.

(** ** Notions used to state the properties *)

(** The bytes a frame adds to the counter of its flow. *)
Definition payload (i : Input) : Z := Z.max 0 (frameLen i - MINIMUM_IP_PACKET_SIZE).

Definition totalPayload (inputs : list Input) : Z :=
  foldr (λ i s, payload i + s) 0 inputs.

(** The frames of one five-tuple, in order. *)
Definition ofFlow (k : FiveTuple) (inputs : list Input) : list Input :=
  filter (λ i, flowOf i = k) inputs.

(** The values the counters of an entry can hold. *)
Definition wfFlow (flw : trackedFlow) : Prop :=
  0 <= packets flw < 2 ^ 64 ∧ 0 <= bytecount flw < 2 ^ 64.

Definition wfTable (table : gmap FiveTuple trackedFlow) : Prop :=
  map_Forall (λ _ flw, wfFlow flw) table.

(** The flow has reached one of the cutoffs. *)
Definition cutOff (cfg : Config) (flw : trackedFlow) : Prop :=
  flowPacketCutoff cfg <= packets flw ∨ flowByteCutoff cfg <= bytecount flw.

(** This iteration runs the sweep. *)
Definition sweepRuns (cfg : Config) (w : Worker) (i : Input) : bool :=
  (wrapInt (speedup w + 1) =? 5000) && cleanupDue cfg w i.

(** The keys this iteration deletes from the table. *)
Definition removedBy (cfg : Config) (w : Worker) (i : Input) : list FiveTuple :=
  if sweepRuns cfg w i
  then (expiredFlows cfg (in_cleanup i) (seen (track cfg w i))).*1
  else [].

(** No sweep of the run deletes the entry of [k]. *)
Fixpoint notRemoved (cfg : Config) (k : FiveTuple) (w : Worker) (inputs : list Input) : Prop :=
  match inputs with
  | [] => True
  | i :: rest => (k ∉ removedBy cfg w i) ∧ notRemoved cfg k (sniffStep cfg w i) rest
  end.

(** The time of the last frame of [k] among [inputs], or [t]. *)
Definition lastSeen (k : FiveTuple) (inputs : list Input) (t : Time) : Time :=
  fold_left (λ t i, if decide (flowOf i = k) then in_now i else t) inputs t.

(** Every entry has counted at least one and at most [B] packets. *)
Definition packetsWithin (B : Z) (table : gmap FiveTuple trackedFlow) : Prop :=
  map_Forall (λ _ flw, 1 <= packets flw <= B) table.

(** The packet counters of a worker that has counted [n] frames since
    it started: the local counters restart at each flush, which adds
    them to the registry. *)
Definition countsInv (w : Worker) (n : Z) : Prop :=
  totalPackets w = speedup w ∧ 0 <= speedup w < 5000 ∧
  0 <= outputPackets w <= totalPackets w ∧
  mPackets (metrics w) + totalPackets w = n ∧
  0 <= mOutput (metrics w) ∧
  mOutput (metrics w) + outputPackets w = Z.of_nat (length (writerchan w)).

(** The large-flow lines a log holds for [k]. *)
Definition largeLines (k : FiveTuple) (log : list LogLine) : list LogLine :=
  filter (λ l, l = LogLargeFlow k) log.

(** The frames the run sends to the writer, in order. *)
Fixpoint forwarded (cfg : Config) (w : Worker) (inputs : list Input) : list Input :=
  match inputs with
  | [] => []
  | i :: rest =>
      (if accepted cfg i w then [i] else []) ++ forwarded cfg (sniffStep cfg w i) rest
  end.

(** Some frame of [k] is dropped while the updated byte count of its
    entry is over [LARGE_FLOW_SIZE]. *)
Fixpoint dropsLarge (cfg : Config) (k : FiveTuple) (w : Worker) (inputs : list Input) : bool :=
  match inputs with
  | [] => false
  | i :: rest =>
      (bool_decide (flowOf i = k) && negb (accepted cfg i w)
         && (LARGE_FLOW_SIZE <? bytecount (updated i w)))
      || dropsLarge cfg k (sniffStep cfg w i) rest
  end.

(** ** Sample configurations and traffic *)

(** The defaults of the flags (lines 140-146); durations in nanoseconds. *)
Definition defaultConfig : Config :=
  {| packetTimeInterval := 5 * 10 ^ 9;
     flowTimeout := 5 * 10 ^ 9;
     flowByteCutoff := 8192;
     flowPacketCutoff := 100;
     writeCompressed := false |}.

Definition withCutoffs (bytes pkts : Z) : Config :=
  {| packetTimeInterval := packetTimeInterval defaultConfig;
     flowTimeout := flowTimeout defaultConfig;
     flowByteCutoff := bytes;
     flowPacketCutoff := pkts;
     writeCompressed := false |}.

(** TCP 10.0.0.1:1234 to 10.0.0.2:80 over IPv4. *)
Definition sampleNet : Flow :=
  {| flow_typ := 2; flow_src := [x0a; x00; x00; x01]; flow_dst := [x0a; x00; x00; x02] |}.
Definition sampleTcp : Flow :=
  {| flow_typ := 4; flow_src := [x04; xd2]; flow_dst := [x00; x50] |}.
Definition sampleLayers : Layers :=
  {| ip4_Protocol := 6; ip4_NetworkFlow := sampleNet;
     ip6_NextHeader := 0; ip6_NetworkFlow := zeroFlow;
     tcp_TransportFlow := sampleTcp; udp_TransportFlow := zeroFlow |}.
Definition sampleKey : FiveTuple :=
  {| proto := 6; networkFlow := sampleNet; transportFlow := sampleTcp |}.

(** A frame of [len] bytes of that flow, read when every clock shows [t]. *)
Definition tcpFrame (t : Z) (len : Z) : Input :=
  {| in_data := replicate (Z.to_nat len) x00;
     in_ci := {| ci_Timestamp := t; ci_CaptureLength := len; ci_Length := len;
                 ci_InterfaceIndex := 0 |};
     in_layers := sampleLayers;
     in_decoded := [LayerTypeEthernet; LayerTypeIPv4; LayerTypeTCP];
     in_now := t;
     in_stats := {| PacketsReceived := 0; PacketsDropped := 0; PacketsIfDropped := 0 |};
     in_since := t; in_cleanup := t; in_done := t |}.

(** [n] frames of [len] bytes each, one per microsecond. *)
Definition tcpFrames (n : nat) (len : Z) : list Input :=
  (λ j, tcpFrame (1000 * Z.of_nat j) len) <$> seq 1 n.

(** A worker that has just started, but for its table. *)
Definition workerWith (table : gmap FiveTuple trackedFlow) : Worker :=
  {| seen := table; totalFlows := 0; removedFlows := 0; totalBytes := 0;
     outputBytes := 0; totalPackets := 0; outputPackets := 0;
     lastcleanup := 0; speedup := 0; writerchan := []; logLines := [];
     metrics := zeroMetrics |}.

(** A frame with no IP layer: an ARP request, of which the parser
    decodes the Ethernet header only. *)
Definition arpFrame (t : Z) : Input :=
  {| in_data := replicate 60 x00;
     in_ci := {| ci_Timestamp := t; ci_CaptureLength := 60; ci_Length := 60;
                 ci_InterfaceIndex := 0 |};
     in_layers := sampleLayers;
     in_decoded := [LayerTypeEthernet];
     in_now := t;
     in_stats := {| PacketsReceived := 0; PacketsDropped := 0; PacketsIfDropped := 0 |};
     in_since := t; in_cleanup := t; in_done := t |}.

(** ** Further notions *)

(** The bytes of the frames of a run, as the loop counts them. *)
Definition totalLen (inputs : list Input) : Z :=
  foldr (λ i s, frameLen i + s) 0 inputs.

(** The byte counters of a worker that has read [read] bytes and sent
    [sent] of them since it started, and the order between the output
    counters and the totals. *)
Definition bytesInv (w : Worker) (read sent : Z) : Prop :=
  0 <= speedup w < 5000 ∧
  0 <= outputBytes w <= totalBytes w ∧
  totalBytes w <= speedup w * MAX_ETHERNET_MTU ∧
  0 <= mBytesOutput (metrics w) <= mBytes (metrics w) ∧
  mBytes (metrics w) + totalBytes w = read ∧
  mBytesOutput (metrics w) + outputBytes w = sent ∧
  0 <= outputPackets w <= totalPackets w ∧
  totalPackets w <= speedup w ∧
  0 <= mOutput (metrics w) <= mPackets (metrics w).

(** The flow counters of a worker that has read [n] frames since it
    started: the flows made are those in the table and those removed. *)
Definition flowsInv (w : Worker) (n : Z) : Prop :=
  0 <= speedup w < 5000 ∧
  0 <= totalFlows w <= speedup w ∧
  0 <= mFlows (metrics w) ∧
  0 <= removedFlows w ∧
  mFlows (metrics w) + totalFlows w = Z.of_nat (size (seen w)) + removedFlows w ∧
  mFlows (metrics w) + totalFlows w <= n ∧
  Z.of_nat (length (mFlowSize (metrics w))) = removedFlows w.

(** A time of the years 0 to 9999, with the fields in their calendar
    ranges. *)
Definition validTime (t : LocalTime) : Prop :=
  0 <= lt_year t <= 9999 ∧ 1 <= lt_month t <= 12 ∧ 1 <= lt_day t <= 31 ∧
  0 <= lt_hour t <= 23 ∧ 0 <= lt_minute t <= 59 ∧ 0 <= lt_second t <= 59.

(** The number a string of decimal digits writes, after [acc]. *)
Fixpoint readDigits (acc : Z) (s : string) : Z :=
  match s with
  | EmptyString => acc
  | String c rest => readDigits (10 * acc + (Z.of_nat (nat_of_ascii c) - 48)) rest
  end.

(** ** Output writer: [mustAtoiWithDefault], [pcapWrapper], [openPcap]
    and [main] (lines 190-199, 340-389 and 426-497) *)

(** What the writer calls on an output file of type [File]: [os.Create]
    and the [Close] of the file; the [Close] of a [gzip.Writer] over the
    file; [WriteFileHeader] and [WritePacket] of a [pcapgo.Writer] that
    writes to the file, through a [gzip.Writer] when the first argument
    is [true]. Making a [gzip.Writer] or a [pcapgo.Writer] writes
    nothing. *)
Class PcapIO (FS error File : Type) := {
  Create : string → FS → (error + File) * FS;
  fileClose : File → FS → option error * FS;
  gzipClose : File → FS → option error * FS;
  WriteFileHeader : bool → File → Z → Z → FS → option error * FS;
  WritePacket : bool → File → CaptureInfo → list Byte.byte → FS → option error * FS
}.

Definition LinkTypeEthernet : Z := 1.

(** The two implementations of the interface [pcapWrapper]. Both hold
    the file; the writers over it are made from it. *)
Inductive pcapWrapper (File : Type) :=
| regularPcapWrapper (outf : File)
| gzippedPcapWrapper (w : File).
Arguments regularPcapWrapper {File} outf.
Arguments gzippedPcapWrapper {File} w.

(** What a frame of the select loop of [main] receives: a frame from
    the channel of the workers, a tick of the rotation ticker or a
    signal. [now] is the local time [renamePcap] reads while the event
    is handled. *)
Inductive Event :=
| EvFrame (pcf : PcapFrame)
| EvTick (now : LocalTime)
| EvSignal (now : LocalTime).

(** The process: in the select loop with its writer, or ended by
    [log.Fatal] or by [os.Exit]. *)
Inductive Status (error File : Type) :=
| Running (pcapWriter : pcapWrapper File)
| Fatal (msg : string) (err : error)
| Exited (code : Z).
Arguments Running {error File} pcapWriter.
Arguments Fatal {error File} msg err.
Arguments Exited {error File} code.

(** The lines logged are not kept. *)
Record Process (FS error File : Type) := {
  p_fs : FS;
  p_status : Status error File
}.
Arguments p_fs {FS error File} p.
Arguments p_status {FS error File} p.

Section Writer.
Context {FS error File : Type} `{FileSystem FS error} `{PcapIO FS error File}.

(** [strconv.Atoi]. *)
Variable Atoi : string → error + Z.

(** Lines 190-199; [inl err] is [log.Fatal(err)]. *)
Definition mustAtoiWithDefault (s : string) (defaultValue : Z) : error + Z :=
  if decide (s = EmptyString) then inr defaultValue else Atoi s.

(** [WritePacket] is the method of the embedded [pcapgo.Writer]. *)
Definition pcapWrapper_WritePacket (wrapper : pcapWrapper File)
    (ci : CaptureInfo) (data : list Byte.byte) (fs : FS) : option error * FS :=
  match wrapper with
  | regularPcapWrapper outf => WritePacket false outf ci data fs
  | gzippedPcapWrapper w => WritePacket true w ci data fs
  end.

(** [Close] of a [regularPcapWrapper] is the method of the embedded
    file; that of a [gzippedPcapWrapper] is lines 356-368. *)
Definition pcapWrapper_Close (wrapper : pcapWrapper File) (fs : FS)
    : option error * FS :=
  match wrapper with
  | regularPcapWrapper outf => fileClose outf fs
  | gzippedPcapWrapper w =>
      let '(gzerr, fs1) := gzipClose w fs in
      let '(ferr, fs2) := fileClose w fs1 in
      (match gzerr with
       | Some e => Some e
       | None => ferr
       end, fs2)
  end.

(** Lines 370-389. The result of [WriteFileHeader] is not looked at. *)
Definition openPcap (cfg : Config) (baseFilename : string) (fs : FS)
    : (error + pcapWrapper File) * FS * list string :=
  let baseFilename :=
    if writeCompressed cfg then baseFilename +:+ ".gz" else baseFilename in
  let lines := ["Opening new pcap file " +:+ baseFilename] in
  match Create baseFilename fs with
  | (inl err, fs1) => (inl err, fs1, lines)
  | (inr outf, fs1) =>
      if writeCompressed cfg then
        let '(_, fs2) := WriteFileHeader true outf 65536 LinkTypeEthernet fs1 in
        (inr (gzippedPcapWrapper outf), fs2, lines)
      else
        let '(_, fs2) := WriteFileHeader false outf 65536 LinkTypeEthernet fs1 in
        (inr (regularPcapWrapper outf), fs2, lines)
  end.

(** One turn of the select loop, lines 460-495. A process that has
    ended handles nothing. *)
Definition mainStep (cfg : Config) (currentFileName writeOutputPath : string)
    (p : Process FS error File) (ev : Event) : Process FS error File :=
  match p_status p with
  | Running pcapWriter =>
      match ev with
      | EvFrame pcf =>
          match pcapWrapper_WritePacket pcapWriter (ci pcf) (data pcf) (p_fs p) with
          | (Some err, fs1) =>
              let '(_, fs2) := pcapWrapper_Close pcapWriter fs1 in
              {| p_fs := fs2; p_status := Fatal "Error writing output pcap" err |}
          | (None, fs1) => {| p_fs := fs1; p_status := Running pcapWriter |}
          end
      | EvTick now =>
          match pcapWrapper_Close pcapWriter (p_fs p) with
          | (Some err, fs1) => {| p_fs := fs1; p_status := Fatal "Error closing pcap" err |}
          | (None, fs1) =>
              match renamePcap cfg now currentFileName writeOutputPath fs1 with
              | (Some err, fs2, _) =>
                  {| p_fs := fs2; p_status := Fatal "Error renaming pcap" err |}
              | (None, fs2, _) =>
                  match openPcap cfg currentFileName fs2 with
                  | (inl err, fs3, _) =>
                      {| p_fs := fs3; p_status := Fatal "Error opening pcap" err |}
                  | (inr wrapper, fs3, _) =>
                      {| p_fs := fs3; p_status := Running wrapper |}
                  end
              end
          end
      | EvSignal now =>
          match pcapWrapper_Close pcapWriter (p_fs p) with
          | (Some err, fs1) => {| p_fs := fs1; p_status := Fatal "Error Closing" err |}
          | (None, fs1) =>
              match renamePcap cfg now currentFileName writeOutputPath fs1 with
              | (Some err, fs2, _) =>
                  {| p_fs := fs2; p_status := Fatal "Error renaming pcap" err |}
              | (None, fs2, _) => {| p_fs := fs2; p_status := Exited 0 |}
              end
          end
      end
  | _ => p
  end.

(** [main] up to the loop: the worker count is read (line 433), what a
    previous run has left is renamed, the result of which is not looked
    at (line 451), and the output is opened (line 454). [t0] is the
    local time [renamePcap] reads. *)
Definition mainStart (cfg : Config) (iface writeOutputPath workerCountString : string)
    (t0 : LocalTime) (fs : FS) : Process FS error File :=
  let currentFileName := iface +:+ "_current.pcap.tmp" in
  match mustAtoiWithDefault workerCountString 1 with
  | inl err => {| p_fs := fs; p_status := Fatal EmptyString err |}
  | inr workerCount =>
      let '(_, fs1, _) := renamePcap cfg t0 currentFileName writeOutputPath fs in
      match openPcap cfg currentFileName fs1 with
      | (inl err, fs2, _) => {| p_fs := fs2; p_status := Fatal "Error opening pcap" err |}
      | (inr wrapper, fs2, _) => {| p_fs := fs2; p_status := Running wrapper |}
      end
  end.

(** The loop on the events it receives, in the order in which the
    select takes them, and [main]. The workers run beside it; what they
    send is the frames of the events. *)
Definition mainLoop (cfg : Config) (currentFileName writeOutputPath : string)
    (p : Process FS error File) (events : list Event) : Process FS error File :=
  fold_left (mainStep cfg currentFileName writeOutputPath) events p.

Definition main (cfg : Config) (iface writeOutputPath workerCountString : string)
    (t0 : LocalTime) (fs : FS) (events : list Event) : Process FS error File :=
  mainLoop cfg (iface +:+ "_current.pcap.tmp") writeOutputPath
    (mainStart cfg iface writeOutputPath workerCountString t0 fs) events.

End Writer.

(** *** A file system that records the calls

    The state is the calls made so far, each with the error it
    returned, and the errors the calls to come return: [answers n] for
    the call number [n]. A file is named by the number of the call that
    created it. *)

Inductive Call :=
| CallMkdirAll (path : string) (perm : Z)
| CallRename (oldpath newpath : string)
| CallCreate (name : string) (f : nat)
| CallFileClose (f : nat)
| CallGzipClose (f : nat)
| CallWriteFileHeader (gz : bool) (f : nat) (snaplen linktype : Z)
| CallWritePacket (gz : bool) (f : nat) (ci : CaptureInfo) (data : list Byte.byte).

Record Recorder := {
  answers : nat → option ToyError;
  calls : list (Call * option ToyError)
}.

Definition record (c : Call) (r : Recorder) : option ToyError * Recorder :=
  let a := answers r (length (calls r)) in
  (a, {| answers := answers r; calls := calls r ++ [(c, a)] |}).

Definition recordCreate (name : string) (r : Recorder) : (ToyError + nat) * Recorder :=
  let f := length (calls r) in
  match record (CallCreate name f) r with
  | (Some e, r1) => (inl e, r1)
  | (None, r1) => (inr f, r1)
  end.

(** Whether a path names a file after the calls: a call that succeeded
    has created it or renamed a file to it, and none has renamed it
    since. *)
Definition named (p : string) (tr : list (Call * option ToyError)) : bool :=
  fold_left (λ b e,
    match e with
    | (CallCreate name _, None) => b || bool_decide (name = p)
    | (CallRename oldpath newpath, None) =>
        (b && negb (bool_decide (oldpath = p))) || bool_decide (newpath = p)
    | _ => b
    end) tr false.

#[global] Instance recorderFileSystem : FileSystem Recorder ToyError := {|
  IsNotExist e := match e with ENOENT => true | _ => false end;
  MkdirAll path perm := record (CallMkdirAll path perm);
  Rename oldpath newpath := record (CallRename oldpath newpath);
  Join a b := a +:+ "/" +:+ b;
  Dir := toyDir;
  fileExists r p := named p (calls r)
|}.

#[global] Instance recorderPcapIO : PcapIO Recorder ToyError nat := {|
  Create := recordCreate;
  fileClose f := record (CallFileClose f);
  gzipClose f := record (CallGzipClose f);
  WriteFileHeader gz f snaplen linktype := record (CallWriteFileHeader gz f snaplen linktype);
  WritePacket gz f ci data := record (CallWritePacket gz f ci data)
|}.

Definition newRecorder (answers : nat → option ToyError) : Recorder :=
  {| answers := answers; calls := [] |}.

(** An [Atoi] for the runs: the number a string of one or more digits
    writes. *)
Fixpoint allDigits (s : string) : bool :=
  match s with
  | EmptyString => true
  | String c rest =>
      (48 <=? Z.of_nat (nat_of_ascii c)) && (Z.of_nat (nat_of_ascii c) <=? 57) &&
      allDigits rest
  end.

Definition toyAtoi (s : string) : ToyError + Z :=
  match s with
  | EmptyString => inl ENOENT
  | _ => if allDigits s then inr (readDigits 0 s) else inl ENOENT
  end.

(** *** Notions on the recorded calls *)

(** The output file after the calls: none is open, one has been
    created, one has its header, or the gzip stream of one has been
    closed. *)
Inductive FileState :=
| Closed
| Created (f : nat)
| Open (f : nat)
| Flushed (f : nat).

Definition after (s : FileState) (e : Call * option ToyError) : FileState :=
  match e with
  | (CallCreate _ f, None) => Created f
  | (CallWriteFileHeader _ f _ _, _) => Open f
  | (CallGzipClose f, _) => Flushed f
  | (CallFileClose _, _) => Closed
  | _ => s
  end.

Definition fileState (tr : list (Call * option ToyError)) : FileState :=
  fold_left after tr Closed.

(** The calls the writer may make in a state of the output file, for
    the compression [gz] and the name [cur] of the current file. *)
Definition allowed (gz : bool) (cur : string) (s : FileState) (c : Call) : Prop :=
  match c with
  | CallMkdirAll _ _ => s = Closed
  | CallRename oldpath _ => s = Closed ∧ oldpath = cur
  | CallCreate name _ => s = Closed ∧ name = cur
  | CallWriteFileHeader gz' f snaplen linktype =>
      s = Created f ∧ gz' = gz ∧ snaplen = 65536 ∧ linktype = LinkTypeEthernet
  | CallWritePacket gz' f _ _ => s = Open f ∧ gz' = gz
  | CallGzipClose f => s = Open f ∧ gz = true
  | CallFileClose f => s = if gz then Flushed f else Open f
  end.

Definition disciplined (gz : bool) (cur : string) (tr : list (Call * option ToyError)) : Prop :=
  ∀ n c a, tr !! n = Some (c, a) → allowed gz cur (fileState (take n tr)) c.

(** The frames passed to [WritePacket], and the frames of the events. *)
Definition written (tr : list (Call * option ToyError)) : list PcapFrame :=
  omap (λ e, match e.1 with
             | CallWritePacket _ _ ci data => Some {| ci := ci; data := data |}
             | _ => None
             end) tr.

Definition framesOf (events : list Event) : list PcapFrame :=
  omap (λ ev, match ev with EvFrame pcf => Some pcf | _ => None end) events.

(** The name of the current file on the disk. *)
Definition currentName (cfg : Config) (tempName : string) : string :=
  if writeCompressed cfg then tempName +:+ ".gz" else tempName.

Definition fileOf (wrapper : pcapWrapper nat) : nat :=
  match wrapper with
  | regularPcapWrapper outf => outf
  | gzippedPcapWrapper w => w
  end.

(** What holds of the recorded process between two events. *)
Definition writerInv (gz : bool) (cur : string) (p : Process Recorder ToyError nat) : Prop :=
  disciplined gz cur (calls (p_fs p)) ∧
  match p_status p with
  | Running wrapper =>
      fileState (calls (p_fs p)) = Open (fileOf wrapper) ∧
      wrapper = if gz then gzippedPcapWrapper (fileOf wrapper)
                else regularPcapWrapper (fileOf wrapper)
  | _ => fileState (calls (p_fs p)) = Closed
  end.

(** *** A run of the writer

    Compression is on; the rename at the start finds no file of a
    previous run; a frame, a rotation, a frame and a signal follow, and
    a frame that is still in the channel. *)
Definition gzConfig : Config :=
  {| packetTimeInterval := packetTimeInterval defaultConfig;
     flowTimeout := flowTimeout defaultConfig;
     flowByteCutoff := flowByteCutoff defaultConfig;
     flowPacketCutoff := flowPacketCutoff defaultConfig;
     writeCompressed := true |}.

Definition sampleAnswers (n : nat) : option ToyError :=
  if Nat.eqb n 1 then Some ENOENT else None.

Definition timeAt (hour : Z) : LocalTime :=
  {| lt_year := 2017; lt_month := 3; lt_day := 9;
     lt_hour := hour; lt_minute := 0; lt_second := 0 |}.

Definition sampleEvents : list Event :=
  [EvFrame (frameOf (tcpFrame 1000 100)); EvTick (timeAt 15);
   EvFrame (frameOf (tcpFrame 2000 60)); EvSignal (timeAt 16);
   EvFrame (frameOf (tcpFrame 3000 60))].

(** * Properties *)

(** ** Machine arithmetic *)

Lemma wrap_range x : 0 <= wrap x < 2 ^ 64.
Proof. unfold wrap. apply Z.mod_pos_bound. lia. Qed.

Lemma wrap_small x : 0 <= x < 2 ^ 64 → wrap x = x.
Proof. intros. unfold wrap. by apply Z.mod_small. Qed.

Lemma wrap_le x : 0 <= x → wrap x <= x.
Proof. intros. unfold wrap. apply Z.mod_le; lia. Qed.

Lemma wrap_add_l x y : wrap (wrap x + y) = wrap (x + y).
Proof. unfold wrap. apply Zplus_mod_idemp_l. Qed.

Lemma time_Sub_exact t u :
  minDuration <= t - u <= maxDuration → time_Sub t u = t - u.
Proof. unfold time_Sub. lia. Qed.

Lemma frameLen_range i : 0 <= frameLen i < 2 ^ 64.
Proof. apply wrap_range. Qed.

Lemma frameLen_exact i :
  Z.of_nat (length (in_data i)) < 2 ^ 64 →
  frameLen i = Z.of_nat (length (in_data i)).
Proof. intros. unfold frameLen. apply wrap_small. lia. Qed.

Lemma payload_nonneg i : 0 <= payload i.
Proof. unfold payload. lia. Qed.

Lemma payload_range i : 0 <= payload i < 2 ^ 64.
Proof.
  pose proof (frameLen_range i). unfold payload, MINIMUM_IP_PACKET_SIZE. lia.
Qed.

Lemma totalPayload_nonneg inputs : 0 <= totalPayload inputs.
Proof.
  induction inputs as [|i inputs IH]; simpl; [lia|].
  pose proof (payload_nonneg i). lia.
Qed.

Lemma totalPayload_app l1 l2 :
  totalPayload (l1 ++ l2) = totalPayload l1 + totalPayload l2.
Proof. induction l1 as [|i l1 IH]; simpl; lia. Qed.

(** ** The entry of a frame *)

Lemma touch_bytecount now pl flw :
  0 <= bytecount flw < 2 ^ 64 →
  bytecount (touch now pl flw) = wrap (bytecount flw + Z.max 0 (pl - MINIMUM_IP_PACKET_SIZE)).
Proof.
  intros Hb. unfold touch; simpl.
  destruct (Z.ltb_spec MINIMUM_IP_PACKET_SIZE pl).
  - f_equal. lia.
  - rewrite Z.max_l by lia. rewrite Z.add_0_r. symmetry. by apply wrap_small.
Qed.

Lemma touch_wf now pl flw : wfFlow flw → wfFlow (touch now pl flw).
Proof.
  intros [Hp Hb]. split; simpl.
  - apply wrap_range.
  - destruct (_ <? _); [apply wrap_range | done].
Qed.

Lemma wf_zero : wfFlow zeroTrackedFlow.
Proof. unfold wfFlow; simpl; lia. Qed.

Lemma wf_default (table : gmap FiveTuple trackedFlow) k :
  wfTable table → wfFlow (default zeroTrackedFlow (table !! k)).
Proof.
  intros Hwf. destruct (table !! k) as [flw|] eqn:E; simpl.
  - by apply (Hwf k).
  - apply wf_zero.
Qed.

Lemma updated_wf i w : wfTable (seen w) → wfFlow (updated i w).
Proof. intros. apply touch_wf. by apply wf_default. Qed.

(** ** The table after the sampler *)

Lemma track_lookup cfg w i :
  seen (track cfg w i) !! flowOf i =
    Some (if logsLarge cfg i w then markLogged (updated i w) else updated i w).
Proof. simpl. apply lookup_insert_eq. Qed.

Lemma track_lookup_ne cfg w i k :
  flowOf i ≠ k → seen (track cfg w i) !! k = seen w !! k.
Proof. intros. simpl. by apply lookup_insert_ne. Qed.

Lemma track_writerchan cfg w i :
  writerchan (track cfg w i) =
    writerchan w ++ (if accepted cfg i w then [frameOf i] else []).
Proof. simpl. destruct (accepted cfg i w); [done | by rewrite app_nil_r]. Qed.

Lemma track_wf cfg w i : wfTable (seen w) → wfTable (seen (track cfg w i)).
Proof.
  intros Hwf. simpl. apply map_Forall_insert_2; [|done].
  pose proof (updated_wf i w Hwf) as Hu.
  by destruct (logsLarge cfg i w).
Qed.

(** ** The sweep *)

Lemma elem_of_expiredFlows cfg now table k flw :
  (k, flw) ∈ expiredFlows cfg now table ↔
    table !! k = Some flw ∧ flowTimeout cfg < time_Sub now (last flw).
Proof.
  unfold expiredFlows. rewrite list_elem_of_filter, elem_of_map_to_list. simpl. tauto.
Qed.

Lemma elem_of_expired_keys cfg now table k :
  k ∈ (expiredFlows cfg now table).*1 ↔
    ∃ flw, table !! k = Some flw ∧ flowTimeout cfg < time_Sub now (last flw).
Proof.
  rewrite list_elem_of_fmap. split.
  - intros [[k' flw] [-> Hin]]. exists flw. by apply elem_of_expiredFlows.
  - intros [flw H]. exists (k, flw). split; [done|]. by apply elem_of_expiredFlows.
Qed.

Lemma NoDup_expired_keys cfg now table : NoDup (expiredFlows cfg now table).*1.
Proof.
  unfold expiredFlows.
  generalize (NoDup_fst_map_to_list table).
  induction (map_to_list table) as [|[k flw] l IH]; [done|].
  rewrite fmap_cons, NoDup_cons. intros [Hk Hl].
  rewrite filter_cons. destruct (decide _); [|by apply IH].
  rewrite fmap_cons. apply NoDup_cons. split; [|by apply IH].
  intros Hin. apply Hk.
  apply list_elem_of_fmap in Hin as [[k' flw'] [Heq Hin]]. simpl in Heq. subst k'.
  apply list_elem_of_filter in Hin as [_ Hin].
  apply list_elem_of_fmap. by exists (k, flw').
Qed.

Lemma lookup_deleteAll remove (table : gmap FiveTuple trackedFlow) k :
  deleteAll remove table !! k = if decide (k ∈ remove) then None else table !! k.
Proof.
  unfold deleteAll. revert table.
  induction remove as [|r remove IH]; intros table; cbn [fold_left].
  - case_decide as H; [by apply elem_of_nil in H | done].
  - rewrite IH. destruct (decide (k ∈ remove)) as [Hin|Hnin].
    + rewrite decide_True; [done | by right].
    + destruct (decide (r = k)) as [->|Hne].
      * rewrite lookup_delete_eq. rewrite decide_True; [done | by left].
      * rewrite lookup_delete_ne by done.
        rewrite decide_False; [done|].
        intros [?|?]%elem_of_cons; congruence.
Qed.

Lemma sweep_lookup cfg w i k :
  seen (sweep cfg w i) !! k =
    match seen w !! k with
    | Some flw =>
        if decide (flowTimeout cfg < time_Sub (in_cleanup i) (last flw))
        then None else Some flw
    | None => None
    end.
Proof.
  simpl. rewrite lookup_deleteAll.
  destruct (decide (k ∈ _)) as [Hin|Hnin].
  - apply elem_of_expired_keys in Hin as [flw [-> Hexp]]. by rewrite decide_True.
  - destruct (seen w !! k) as [flw|] eqn:E; [|done].
    destruct (decide _) as [Hexp|]; [|done].
    exfalso. apply Hnin. apply elem_of_expired_keys. eauto.
Qed.

Lemma sweep_wf cfg w i : wfTable (seen w) → wfTable (seen (sweep cfg w i)).
Proof.
  intros Hwf k flw Hk. rewrite sweep_lookup in Hk.
  destruct (seen w !! k) as [flw'|] eqn:E; [|done].
  case_decide; [done|]. injection Hk as <-. by apply (Hwf k).
Qed.

(** ** One iteration *)

Lemma sniffStep_seen cfg w i :
  seen (sniffStep cfg w i) = deleteAll (removedBy cfg w i) (seen (track cfg w i)).
Proof.
  unfold sniffStep, housekeeping, removedBy, sweepRuns, cleanupDue.
  cbn [speedup track lastcleanup setSpeedup].
  destruct (wrapInt (speedup w + 1) =? 5000); [|done].
  destruct (packetTimeInterval cfg <? _); done.
Qed.

Lemma sniffStep_lookup cfg w i k :
  seen (sniffStep cfg w i) !! k =
    if decide (k ∈ removedBy cfg w i) then None else seen (track cfg w i) !! k.
Proof. rewrite sniffStep_seen. apply lookup_deleteAll. Qed.

Lemma removedBy_expired cfg w i k :
  k ∈ removedBy cfg w i →
  ∃ flw, seen (track cfg w i) !! k = Some flw ∧
         flowTimeout cfg < time_Sub (in_cleanup i) (last flw).
Proof.
  unfold removedBy. destruct (sweepRuns cfg w i).
  - by intros ?%elem_of_expired_keys.
  - by intros ?%elem_of_nil.
Qed.

Lemma sniffStep_lookup_Some cfg w i k flw :
  seen (sniffStep cfg w i) !! k = Some flw → seen (track cfg w i) !! k = Some flw.
Proof. rewrite sniffStep_lookup. by case_decide. Qed.

Lemma sniffStep_writerchan cfg w i :
  writerchan (sniffStep cfg w i) =
    writerchan w ++ (if accepted cfg i w then [frameOf i] else []).
Proof.
  rewrite <- track_writerchan.
  unfold sniffStep, housekeeping.
  destruct (_ =? 5000); [|done].
  by destruct (cleanupDue _ _ _).
Qed.

Lemma largeLines_app k l1 l2 : largeLines k (l1 ++ l2) = largeLines k l1 ++ largeLines k l2.
Proof. apply filter_app. Qed.

Lemma sniffStep_largeLines cfg w i k :
  largeLines k (logLines (sniffStep cfg w i)) =
    largeLines k (logLines w) ++
      (if logsLarge cfg i w && bool_decide (flowOf i = k) then [LogLargeFlow k] else []).
Proof.
  assert (largeLines k (logLines (track cfg w i)) =
    largeLines k (logLines w) ++
      (if logsLarge cfg i w && bool_decide (flowOf i = k) then [LogLargeFlow k] else []))
    as Htrack.
  { cbn [logLines track]. destruct (logsLarge cfg i w); cbn [andb].
    - rewrite largeLines_app. f_equal. unfold largeLines.
      rewrite filter_cons, filter_nil.
      case_bool_decide as Hk.
      + subst k. by rewrite decide_True.
      + rewrite decide_False; [done | congruence].
    - by rewrite app_nil_r. }
  rewrite <- Htrack.
  unfold sniffStep, housekeeping.
  destruct (_ =? 5000); [|done].
  destruct (cleanupDue _ _ _); [|done].
  cbn [logLines flush sweep setSpeedup]. rewrite largeLines_app.
  unfold largeLines at 2. rewrite filter_cons, filter_nil.
  rewrite decide_False by done. by rewrite app_nil_r.
Qed.

Lemma sniffStep_wf cfg w i : wfTable (seen w) → wfTable (seen (sniffStep cfg w i)).
Proof.
  intros Hwf k flw Hk. apply sniffStep_lookup_Some in Hk.
  by apply (track_wf cfg w i Hwf k).
Qed.

(** ** Runs *)

Lemma sniffFrom_cons cfg w i inputs :
  sniffFrom cfg w (i :: inputs) = sniffFrom cfg (sniffStep cfg w i) inputs.
Proof. done. Qed.

Lemma sniffFrom_app cfg w l1 l2 :
  sniffFrom cfg w (l1 ++ l2) = sniffFrom cfg (sniffFrom cfg w l1) l2.
Proof. apply fold_left_app. Qed.

Lemma sniffFrom_snoc cfg w inputs i :
  sniffFrom cfg w (inputs ++ [i]) = sniffStep cfg (sniffFrom cfg w inputs) i.
Proof. by rewrite sniffFrom_app. Qed.

Lemma sniffFrom_wf cfg w inputs :
  wfTable (seen w) → wfTable (seen (sniffFrom cfg w inputs)).
Proof.
  revert w. induction inputs as [|i inputs IH]; intros w Hwf; [done|].
  rewrite sniffFrom_cons. apply IH. by apply sniffStep_wf.
Qed.

Lemma notRemoved_app cfg k w l1 l2 :
  notRemoved cfg k w (l1 ++ l2) ↔
    notRemoved cfg k w l1 ∧ notRemoved cfg k (sniffFrom cfg w l1) l2.
Proof.
  revert w. induction l1 as [|i l1 IH]; intros w; simpl.
  - tauto.
  - rewrite IH. tauto.
Qed.

Lemma totalPayload_cons i l : totalPayload (i :: l) = payload i + totalPayload l.
Proof. done. Qed.

Lemma ofFlow_cons_eq k i l : flowOf i = k → ofFlow k (i :: l) = i :: ofFlow k l.
Proof. intros. unfold ofFlow. by rewrite filter_cons_True. Qed.

Lemma ofFlow_cons_ne k i l : flowOf i ≠ k → ofFlow k (i :: l) = ofFlow k l.
Proof. intros. unfold ofFlow. by rewrite filter_cons_False. Qed.

Lemma ofFlow_all k inputs : Forall (λ i, flowOf i = k) inputs → ofFlow k inputs = inputs.
Proof.
  unfold ofFlow. induction 1 as [|i inputs Hi _ IH]; [done|].
  by rewrite filter_cons_True, IH.
Qed.

Lemma writerchan_run cfg w inputs :
  writerchan (sniffFrom cfg w inputs) = writerchan w ++ (frameOf <$> forwarded cfg w inputs).
Proof.
  revert w. induction inputs as [|i inputs IH]; intros w.
  - simpl. by rewrite app_nil_r.
  - rewrite sniffFrom_cons, IH, sniffStep_writerchan. cbn [forwarded].
    rewrite fmap_app, app_assoc. by destruct (accepted cfg i w).
Qed.

(** The entry of [k] after an iteration that does not delete it. *)
Lemma sniffStep_entry cfg w i k :
  k ∉ removedBy cfg w i →
  seen (sniffStep cfg w i) !! k =
    if decide (flowOf i = k)
    then Some (if logsLarge cfg i w then markLogged (updated i w) else updated i w)
    else seen w !! k.
Proof.
  intros Hk. rewrite sniffStep_lookup, decide_False by done.
  case_decide as Hf.
  - subst k. apply track_lookup.
  - by apply track_lookup_ne.
Qed.

(** The counters of an entry that no sweep of the run deletes: the
    frames of its key, counted and summed modulo 2^64. *)
Lemma run_counters cfg k inputs w :
  wfTable (seen w) →
  notRemoved cfg k w inputs →
  let flw0 := default zeroTrackedFlow (seen w !! k) in
  let flw := default zeroTrackedFlow (seen (sniffFrom cfg w inputs) !! k) in
  packets flw = wrap (packets flw0 + Z.of_nat (length (ofFlow k inputs))) ∧
  bytecount flw = wrap (bytecount flw0 + totalPayload (ofFlow k inputs)) ∧
  last flw = lastSeen k inputs (last flw0).
Proof.
  revert w. induction inputs as [|i inputs IH]; intros w Hwf Hnr; cbn zeta.
  - pose proof (wf_default (seen w) k Hwf) as [Hp Hb]. simpl.
    rewrite !Z.add_0_r, !wrap_small by done. done.
  - destruct Hnr as [Hk Hnr].
    specialize (IH (sniffStep cfg w i) (sniffStep_wf cfg w i Hwf) Hnr).
    cbn zeta in IH. rewrite sniffFrom_cons.
    destruct IH as (IHp & IHb & IHl). rewrite IHp, IHb, IHl.
    rewrite (sniffStep_entry cfg w i k Hk).
    unfold ofFlow, lastSeen. rewrite filter_cons. cbn [fold_left].
    destruct (decide (flowOf i = k)) as [Hf|Hf].
    + assert (∀ e, default zeroTrackedFlow
                (Some (if logsLarge cfg i w then markLogged e else e)) =
                if logsLarge cfg i w then markLogged e else e) as Hd by done.
      rewrite Hd.
      assert (∀ e, packets (if logsLarge cfg i w then markLogged e else e) = packets e
                 ∧ bytecount (if logsLarge cfg i w then markLogged e else e) = bytecount e
                 ∧ last (if logsLarge cfg i w then markLogged e else e) = last e) as Hm.
      { intros e. by destruct (logsLarge cfg i w). }
      destruct (Hm (updated i w)) as (-> & -> & ->).
      unfold updated. rewrite Hf.
      pose proof (wf_default (seen w) k Hwf) as [Hp Hb].
      rewrite touch_bytecount by done. cbn [packets touch last length totalPayload foldr].
      fold (payload i). rewrite !wrap_add_l.
      split_and!; [f_equal; lia | unfold totalPayload; f_equal; lia | done].
    + done.
Qed.

Lemma run_present cfg k inputs w :
  notRemoved cfg k w inputs →
  is_Some (seen w !! k) ∨ ofFlow k inputs ≠ [] →
  is_Some (seen (sniffFrom cfg w inputs) !! k).
Proof.
  revert w. induction inputs as [|i inputs IH]; intros w Hnr Hor.
  - destruct Hor as [?|?]; done.
  - destruct Hnr as [Hk Hnr]. rewrite sniffFrom_cons. apply IH; [done|].
    rewrite (sniffStep_entry cfg w i k Hk).
    case_decide as Hf; [by left|].
    destruct Hor as [?|Hne]; [by left|].
    right. unfold ofFlow in Hne. by rewrite filter_cons_False in Hne.
Qed.

Lemma run_absent cfg k inputs w :
  seen w !! k = None → ofFlow k inputs = [] →
  seen (sniffFrom cfg w inputs) !! k = None.
Proof.
  revert w. induction inputs as [|i inputs IH]; intros w Hnone Hno; [done|].
  unfold ofFlow in Hno. rewrite filter_cons in Hno.
  destruct (decide (flowOf i = k)) as [|Hf]; [done|].
  rewrite sniffFrom_cons. apply IH; [|done].
  rewrite sniffStep_lookup. case_decide; [done|].
  by rewrite track_lookup_ne.
Qed.

(** A frame just seen is not expired by the sweep of its own iteration
    when the clock has moved by no more than the timeout since. *)
Lemma single_flow_notRemoved cfg k inputs w :
  Forall (λ i, flowOf i = k ∧ time_Sub (in_cleanup i) (in_now i) <= flowTimeout cfg) inputs →
  notRemoved cfg k w inputs.
Proof.
  intros Hall. revert w. induction Hall as [|i inputs [Hf Ht] _ IH]; intros w; [done|].
  split; [|apply IH].
  intros (flw & Hflw & Hexp)%removedBy_expired.
  subst k. rewrite track_lookup in Hflw. injection Hflw as <-.
  assert (last (if logsLarge cfg i w then markLogged (updated i w) else updated i w)
          = in_now i) as Hl by (by destruct (logsLarge cfg i w)).
  rewrite Hl in Hexp. lia.
Qed.



Lemma forwarded_app cfg w l1 l2 :
  forwarded cfg w (l1 ++ l2) =
    forwarded cfg w l1 ++ forwarded cfg (sniffFrom cfg w l1) l2.
Proof.
  revert w. induction l1 as [|i l1 IH]; intros w; [done|].
  cbn [app forwarded]. by rewrite IH, app_assoc.
Qed.

(** ** Runs of a single flow below the byte cutoff *)

(** After the frames [l] of a new flow, the next frame [i] of that flow
    is sent to the writer exactly when it is not yet the
    [flowPacketCutoff]-th. *)
Lemma single_flow_accepted cfg k l i w :
  wfTable (seen w) →
  seen w !! k = None →
  Forall (λ j, flowOf j = k) (l ++ [i]) →
  notRemoved cfg k w l →
  totalPayload (l ++ [i]) < flowByteCutoff cfg →
  Z.of_nat (length l) + 1 < 2 ^ 64 →
  accepted cfg i (sniffFrom cfg w l) = (Z.of_nat (length l) + 1 <? flowPacketCutoff cfg).
Proof.
  intros Hwf Hnone Hall Hnr Hbytes Hlen.
  rewrite Forall_app, Forall_singleton in Hall. destruct Hall as [Hl Hi].
  pose proof (run_counters cfg k l w Hwf Hnr) as Hc. cbn zeta in Hc.
  rewrite Hnone, (ofFlow_all k l Hl) in Hc. simpl in Hc.
  destruct Hc as (Hp & Hb & _).
  pose proof (wf_default _ k (sniffFrom_wf cfg w l Hwf)) as [_ Hbr].
  unfold accepted, underCutoff, updated. rewrite Hi.
  rewrite touch_bytecount by done. cbn [packets touch]. fold (payload i).
  rewrite Hp, Hb, !wrap_add_l, Z.add_0_l.
  rewrite (wrap_small (_ + 1)) by lia.
  rewrite totalPayload_app in Hbytes. simpl in Hbytes.
  pose proof (totalPayload_nonneg l). pose proof (payload_nonneg i).
  pose proof (wrap_le (totalPayload l + payload i)).
  replace (_ <? flowByteCutoff cfg) with true by (symmetry; apply Z.ltb_lt; lia).
  done.
Qed.

Lemma single_flow_forwarded cfg k inputs w :
  wfTable (seen w) →
  seen w !! k = None →
  Forall (λ i, flowOf i = k) inputs →
  notRemoved cfg k w inputs →
  totalPayload inputs < flowByteCutoff cfg →
  Z.of_nat (length inputs) < 2 ^ 64 →
  forwarded cfg w inputs = take (Z.to_nat (flowPacketCutoff cfg - 1)) inputs.
Proof.
  intros Hwf Hnone.
  induction inputs as [|i l IH] using rev_ind; intros Hall Hnr Hbytes Hlen.
  - by rewrite take_nil.
  - rewrite forwarded_app. cbn [forwarded]. rewrite app_nil_r.
    rewrite length_app in Hlen. simpl in Hlen.
    pose proof Hnr as [Hnr1 _]%notRemoved_app.
    rewrite (single_flow_accepted cfg k l i w) by (done || lia).
    pose proof Hall as [Hall1 _]%Forall_app.
    rewrite IH; [|done|done| |lia].
    2:{ rewrite totalPayload_app in Hbytes. pose proof (totalPayload_nonneg [i]). lia. }
    destruct (Z.ltb_spec (Z.of_nat (length l) + 1) (flowPacketCutoff cfg)).
    + rewrite take_ge by lia. rewrite take_ge; [done|].
      rewrite length_app. simpl. lia.
    + rewrite app_nil_r. rewrite take_app_le by lia. done.
Qed.

(** While such a flow stays below the packet cutoff too, no large-flow
    line is logged. *)
Lemma single_flow_quiet cfg k k' inputs w :
  wfTable (seen w) →
  seen w !! k = None →
  Forall (λ i, flowOf i = k) inputs →
  notRemoved cfg k w inputs →
  totalPayload inputs < flowByteCutoff cfg →
  Z.of_nat (length inputs) < flowPacketCutoff cfg →
  Z.of_nat (length inputs) < 2 ^ 64 →
  largeLines k' (logLines (sniffFrom cfg w inputs)) = largeLines k' (logLines w).
Proof.
  intros Hwf Hnone.
  induction inputs as [|i l IH] using rev_ind; intros Hall Hnr Hbytes Hpc Hlen; [done|].
  rewrite length_app in Hpc, Hlen. simpl in Hpc, Hlen.
  pose proof Hnr as [Hnr1 _]%notRemoved_app.
  pose proof Hall as [Hall1 _]%Forall_app.
  rewrite sniffFrom_snoc, sniffStep_largeLines.
  unfold logsLarge. rewrite (single_flow_accepted cfg k l i w) by (done || lia).
  replace (_ <? flowPacketCutoff cfg) with true by (symmetry; apply Z.ltb_lt; lia).
  cbn [negb andb]. rewrite app_nil_r. apply IH; [done|done| |lia|lia].
  rewrite totalPayload_app in Hbytes. pose proof (totalPayload_nonneg [i]). lia.
Qed.

(** ** The packet counters from the first iteration on *)

Lemma countsInv_step cfg w i n :
  countsInv w n → countsInv (sniffStep cfg w i) (n + 1).
Proof.
  intros (Hts & Hs & Ho & Hp & Hm & Hout).
  assert (wrapInt (speedup w + 1) = speedup w + 1) as Hwi.
  { unfold wrapInt. rewrite Z.mod_small; lia. }
  assert (wrap (totalPackets w + 1) = totalPackets w + 1) as Hwt.
  { apply wrap_small. lia. }
  assert (wrap (outputPackets w + 1) = outputPackets w + 1) as Hwo.
  { apply wrap_small. lia. }
  unfold countsInv, sniffStep, housekeeping.
  cbn [speedup track]. rewrite Hwi.
  destruct (Z.eqb_spec (speedup w + 1) 5000) as [He|Hne].
  - destruct (cleanupDue _ _ _); cbn; rewrite Hwt;
      destruct (accepted cfg i w); rewrite ?Hwo, ?length_app; simpl; lia.
  - cbn. rewrite Hwt.
    destruct (accepted cfg i w); rewrite ?Hwo, ?length_app; simpl; lia.
Qed.

Lemma countsInv_run cfg w inputs n :
  countsInv w n → countsInv (sniffFrom cfg w inputs) (n + Z.of_nat (length inputs)).
Proof.
  revert w n. induction inputs as [|i inputs IH]; intros w n Hinv.
  - simpl. by rewrite Z.add_0_r.
  - rewrite sniffFrom_cons.
    replace (n + Z.of_nat (length (i :: inputs))) with (n + 1 + Z.of_nat (length inputs))
      by (simpl; lia).
    apply IH. by apply countsInv_step.
Qed.

Lemma countsInv_new t0 : countsInv (newWorker t0) 0.
Proof. unfold countsInv; simpl. lia. Qed.

(** ** The sample traffic *)

Lemma time_Sub_same t : time_Sub t t = 0.
Proof. unfold time_Sub, minDuration, maxDuration. lia. Qed.

Lemma tcpFrames_flow n len : Forall (λ i, flowOf i = sampleKey) (tcpFrames n len).
Proof. apply Forall_fmap, Forall_forall. intros j _. reflexivity. Qed.

Lemma tcpFrames_fresh cfg n len :
  0 <= flowTimeout cfg →
  Forall (λ i, flowOf i = sampleKey ∧
               time_Sub (in_cleanup i) (in_now i) <= flowTimeout cfg) (tcpFrames n len).
Proof.
  intros Ht. apply Forall_fmap, Forall_forall. intros j _. split; [reflexivity|].
  cbn [in_cleanup in_now tcpFrame]. by rewrite time_Sub_same.
Qed.

(** * Head truncation *)

(** C1, as stated, fails: of 200 frames of 100 bytes of one TCP flow,
    with [packetcutoff=100] and [bytecutoff=10000000], 99 frames are
    sent to the writer, not 100; the 100th is dropped although the byte
    count is far below its cutoff. All 200 are counted. *)
Lemma head_truncation_first_100_refuted :
  let inputs := tcpFrames 200 100 in
  let cfg := withCutoffs 10000000 100 in
  let W := doSniff cfg 0 inputs in
  Forall (λ i, flowOf i = sampleKey) inputs ∧
  totalPayload inputs < flowByteCutoff cfg ∧
  writerchan W = frameOf <$> take 99 inputs ∧
  length (writerchan W) ≠ Nat.min 200 100 ∧
  totalPackets W = 200.
Proof.
  cbn zeta. split_and!.
  - apply tcpFrames_flow.
  - vm_compute. reflexivity.
  - vm_compute. reflexivity.
  - vm_compute. discriminate.
  - vm_compute. reflexivity.
Qed.

(** C1, amended: for every run of frames of one flow whose payload
    bytes total less than the byte cutoff, the frames sent to the writer
    are exactly the first [flowPacketCutoff - 1] frames of the run (all
    of them when the run is shorter), so their number is
    [min K (packet_cutoff - 1)]; every frame is counted in the total,
    every sent frame in the output count. The run is taken from the
    start of the worker, with fewer than 2^64 frames, and each sweep
    finds the frame of its iteration no older than the timeout. *)
Theorem head_truncation cfg t0 k inputs :
  Forall (λ i, flowOf i = k ∧
               time_Sub (in_cleanup i) (in_now i) <= flowTimeout cfg) inputs →
  totalPayload inputs < flowByteCutoff cfg →
  Z.of_nat (length inputs) < 2 ^ 64 →
  let W := doSniff cfg t0 inputs in
  writerchan W = frameOf <$> take (Z.to_nat (flowPacketCutoff cfg - 1)) inputs ∧
  Z.of_nat (length (writerchan W)) =
    Z.min (Z.of_nat (length inputs)) (Z.max 0 (flowPacketCutoff cfg - 1)) ∧
  mPackets (metrics W) + totalPackets W = Z.of_nat (length inputs) ∧
  mOutput (metrics W) + outputPackets W = Z.of_nat (length (writerchan W)).
Proof.
  intros Hall Hbytes Hlen W.
  assert (writerchan W = frameOf <$> take (Z.to_nat (flowPacketCutoff cfg - 1)) inputs)
    as Hchan.
  { unfold W, doSniff. rewrite writerchan_run. cbn [writerchan newWorker app].
    f_equal. apply (single_flow_forwarded cfg k).
    - apply map_Forall_empty.
    - apply lookup_empty.
    - eapply Forall_impl; [exact Hall|]. by intros i [? _].
    - by apply single_flow_notRemoved.
    - done.
    - done. }
  pose proof (countsInv_run cfg (newWorker t0) inputs 0 (countsInv_new t0))
    as (_ & _ & _ & Hp & _ & Hout).
  fold (doSniff cfg t0 inputs) in Hp, Hout. fold W in Hp, Hout.
  split_and!; [done| |lia|done].
  rewrite Hchan, length_fmap, length_take. lia.
Qed.

(** The amended C1 on the 200 frames above, where
    [flowPacketCutoff - 1] is 99. *)
Lemma head_truncation_witness :
  let cfg := withCutoffs 10000000 100 in
  let inputs := tcpFrames 200 100 in
  let W := doSniff cfg 0 inputs in
  writerchan W = frameOf <$> take (Z.to_nat (flowPacketCutoff cfg - 1)) inputs ∧
  Z.of_nat (length (writerchan W)) =
    Z.min (Z.of_nat (length inputs)) (Z.max 0 (flowPacketCutoff cfg - 1)) ∧
  mPackets (metrics W) + totalPackets W = Z.of_nat (length inputs) ∧
  mOutput (metrics W) + outputPackets W = Z.of_nat (length (writerchan W)).
Proof.
  intros cfg inputs.
  apply (head_truncation cfg 0 sampleKey inputs).
  - apply tcpFrames_fresh. vm_compute. discriminate.
  - vm_compute. reflexivity.
  - vm_compute. reflexivity.
Defined.

(** * The comparison with the updated counters *)

Lemma updated_counters i w :
  wfTable (seen w) →
  let old := default zeroTrackedFlow (seen w !! flowOf i) in
  packets (updated i w) = wrap (packets old + 1) ∧
  bytecount (updated i w) = wrap (bytecount old + payload i) ∧
  last (updated i w) = in_now i ∧
  logged (updated i w) = logged old.
Proof.
  intros Hwf old. pose proof (wf_default _ (flowOf i) Hwf) as [_ Hb].
  unfold updated. rewrite touch_bytecount by done. done.
Qed.

(** C2, as stated, fails: of 10 frames of 2000 bytes of one flow, with
    [bytecutoff=8192] and [packetcutoff=100], 4 frames are sent to the
    writer, not 5. The fifth frame, which takes the count from 7768 to
    9710, is dropped; and a single frame of 9000 bytes of a new flow is
    dropped as well. *)
Lemma crossing_frame_accepted_refuted :
  let inputs := tcpFrames 10 2000 in
  let W4 := doSniff defaultConfig 0 (take 4 inputs) in
  let W := doSniff defaultConfig 0 inputs in
  Forall (λ i, payload i = 1942) inputs ∧
  bytecount <$> seen W4 !! sampleKey = Some 7768 ∧
  Forall (λ i, accepted defaultConfig i W4 = false) (take 1 (drop 4 inputs)) ∧
  writerchan W = frameOf <$> take 4 inputs ∧
  length (writerchan W) ≠ 5%nat ∧
  writerchan (doSniff defaultConfig 0 [tcpFrame 0 9000]) = [].
Proof.
  cbn zeta. split_and!.
  - apply Forall_fmap, Forall_forall. intros j _. vm_compute. reflexivity.
  - vm_compute. reflexivity.
  - repeat constructor.
  - vm_compute. reflexivity.
  - vm_compute. discriminate.
  - vm_compute. reflexivity.
Qed.

(** C2, amended: the test uses the counters as updated by the frame
    itself and is strict, so a frame is sent to the writer exactly when
    the byte count including it is below the byte cutoff and the packet
    count including it is below the packet cutoff. The frame on which
    the flow reaches or passes the byte cutoff is dropped: of the 10
    frames of 2000 bytes the first 4 are sent, and a flow whose first
    frame alone reaches the byte cutoff has nothing sent. *)
Theorem post_update_comparison :
  (∀ cfg w i, wfTable (seen w) →
     let old := default zeroTrackedFlow (seen w !! flowOf i) in
     writerchan (sniffStep cfg w i) =
       writerchan w ++
         (if (wrap (bytecount old + payload i) <? flowByteCutoff cfg)
             && (wrap (packets old + 1) <? flowPacketCutoff cfg)
          then [frameOf i] else [])) ∧
  (∀ cfg w i, wfTable (seen w) → seen w !! flowOf i = None →
     flowByteCutoff cfg <= payload i →
     writerchan (sniffStep cfg w i) = writerchan w) ∧
  writerchan (doSniff defaultConfig 0 (tcpFrames 10 2000)) =
    frameOf <$> take 4 (tcpFrames 10 2000).
Proof.
  assert (∀ cfg w i, wfTable (seen w) →
     let old := default zeroTrackedFlow (seen w !! flowOf i) in
     writerchan (sniffStep cfg w i) =
       writerchan w ++
         (if (wrap (bytecount old + payload i) <? flowByteCutoff cfg)
             && (wrap (packets old + 1) <? flowPacketCutoff cfg)
          then [frameOf i] else [])) as Hstep.
  { intros cfg w i Hwf old. rewrite sniffStep_writerchan.
    unfold accepted, underCutoff.
    by destruct (updated_counters i w Hwf) as (-> & -> & _). }
  split_and!; [done| |vm_compute; reflexivity].
  intros cfg w i Hwf Hnone Hcut. rewrite Hstep by done. cbn zeta.
  rewrite Hnone. cbn [default zeroTrackedFlow bytecount]. rewrite Z.add_0_l.
  rewrite wrap_small by apply payload_range.
  replace (_ <? flowByteCutoff cfg) with false by (symmetry; apply Z.ltb_ge; lia).
  cbn [andb]. by rewrite app_nil_r.
Qed.

(** The amended C2 on a frame of 9000 bytes that opens a flow. *)
Lemma post_update_comparison_witness :
  let w := newWorker 0 in
  let i := tcpFrame 0 9000 in
  writerchan (sniffStep defaultConfig w i) = writerchan w.
Proof.
  intros w i.
  apply (proj1 (proj2 post_update_comparison) defaultConfig w i).
  - apply map_Forall_empty.
  - reflexivity.
  - vm_compute. discriminate.
Defined.

(** * A flow that has reached a cutoff *)

Lemma marked_fields cfg i w e :
  let e' := if logsLarge cfg i w then markLogged e else e in
  packets e' = packets e ∧ bytecount e' = bytecount e ∧ last e' = last e.
Proof. cbn zeta. by destruct (logsLarge cfg i w). Qed.

Lemma cutOff_step cfg w i flw :
  wfTable (seen w) →
  seen w !! flowOf i = Some flw →
  cutOff cfg flw →
  packets flw + 1 < 2 ^ 64 →
  bytecount flw + payload i < 2 ^ 64 →
  accepted cfg i w = false ∧
  cutOff cfg (updated i w) ∧
  packets (updated i w) = packets flw + 1 ∧
  bytecount (updated i w) = bytecount flw + payload i ∧
  last (updated i w) = in_now i.
Proof.
  intros Hwf Hflw Hcut Hp Hb.
  destruct (updated_counters i w Hwf) as (Hup & Hub & Hul & _).
  rewrite Hflw in Hup, Hub. cbn [default from_option id] in Hup, Hub.
  destruct (Hwf _ _ Hflw) as [Hp0 Hb0]. pose proof (payload_nonneg i).
  rewrite wrap_small in Hup by lia. rewrite wrap_small in Hub by lia.
  assert (cutOff cfg (updated i w)) as Hcut'.
  { unfold cutOff in *. rewrite Hup, Hub. lia. }
  split_and!; try done.
  unfold accepted, underCutoff. apply andb_false_iff.
  destruct Hcut' as [Hc|Hc]; [right | left]; apply Z.ltb_ge; lia.
Qed.

(** C3: from a state in which the entry of [k] has reached the packet
    or the byte cutoff, and over any run in which no sweep deletes that
    entry, no frame of [k] is among the frames sent to the writer; the
    entry is still in the table at the end, still cut off, and its
    [last] is the time of the latest frame of [k]. An iteration takes
    the entry out of the table only through its sweep, which needs the
    entry to be older than the timeout. The counters are taken not to
    wrap around 2^64 during the run. *)
Theorem cutoff_is_final cfg w k flw inputs :
  wfTable (seen w) →
  seen w !! k = Some flw →
  cutOff cfg flw →
  notRemoved cfg k w inputs →
  packets flw + Z.of_nat (length (ofFlow k inputs)) < 2 ^ 64 →
  bytecount flw + totalPayload (ofFlow k inputs) < 2 ^ 64 →
  let W := sniffFrom cfg w inputs in
  writerchan W = writerchan w ++ (frameOf <$> forwarded cfg w inputs) ∧
  Forall (λ i, flowOf i ≠ k) (forwarded cfg w inputs) ∧
  (∃ flw', seen W !! k = Some flw' ∧ cutOff cfg flw' ∧
           last flw' = lastSeen k inputs (last flw)) ∧
  (∀ i, seen (sniffStep cfg w i) !! k = None →
        ∃ e, seen (track cfg w i) !! k = Some e ∧
             flowTimeout cfg < time_Sub (in_cleanup i) (last e)).
Proof.
  intros Hwf Hflw Hcut Hnr Hp Hb W.
  split; [apply writerchan_run|].
  assert (Forall (λ i, flowOf i ≠ k) (forwarded cfg w inputs) ∧
          ∃ flw', seen W !! k = Some flw' ∧ cutOff cfg flw' ∧
                  last flw' = lastSeen k inputs (last flw)) as [HF HE]; [|split_and!; [done|done|]].
  - subst W. revert w flw Hwf Hflw Hcut Hnr Hp Hb.
    induction inputs as [|i inputs IH]; intros w flw Hwf Hflw Hcut Hnr Hp Hb.
    + split; [constructor|]. by exists flw.
    + destruct Hnr as [Hk Hnr].
      pose proof (sniffStep_entry cfg w i k Hk) as Hentry.
      unfold lastSeen. cbn [forwarded fold_left]. rewrite sniffFrom_cons.
      destruct (decide (flowOf i = k)) as [Hf|Hf].
      * rewrite ofFlow_cons_eq in Hp, Hb by done.
        rewrite totalPayload_cons in Hb. rewrite length_cons in Hp.
        pose proof (totalPayload_nonneg (ofFlow k inputs)).
        rewrite <- Hf in Hflw.
        destruct (cutOff_step cfg w i flw Hwf Hflw Hcut) as (Hacc & Hcut' & Hp' & Hb' & Hl');
          [lia | lia |].
        destruct (marked_fields cfg i w (updated i w)) as (Hmp & Hmb & Hml).
        rewrite Hacc. cbn [app].
        eapply (IH _ _ (sniffStep_wf cfg w i Hwf) Hentry) in Hnr as [Hfw (flw' & ? & ? & Hlast)].
        -- split; [done|]. exists flw'. split_and!; [done|done|].
           rewrite Hlast. unfold lastSeen. f_equal. cbn zeta in Hml. by rewrite Hml.
        -- unfold cutOff in *. cbn zeta in Hmp, Hmb. rewrite Hmp, Hmb. done.
        -- cbn zeta in Hmp. rewrite Hmp, Hp'. lia.
        -- cbn zeta in Hmb. rewrite Hmb, Hb'. lia.
      * rewrite ofFlow_cons_ne in Hp, Hb by done. rewrite Hflw in Hentry.
        eapply (IH _ _ (sniffStep_wf cfg w i Hwf) Hentry) in Hnr as [Hfw Hex]; [|done..].
        split; [|done].
        apply Forall_app. split; [|done].
        destruct (accepted cfg i w); [|constructor]. by repeat constructor.
  - intros i Hnone. rewrite sniffStep_lookup in Hnone.
    case_decide as Hin.
    + by apply removedBy_expired.
    + destruct (decide (flowOf i = k)) as [Hf|Hf].
      * subst k. by rewrite track_lookup in Hnone.
      * rewrite track_lookup_ne in Hnone by done. congruence.
Qed.

(** In the first 4999 iterations of a worker the housekeeping, and so
    the sweep, does not run. *)
Lemma sniffStep_speedup_short cfg w i :
  0 <= speedup w → speedup w + 1 < 5000 →
  removedBy cfg w i = [] ∧ speedup (sniffStep cfg w i) = speedup w + 1.
Proof.
  intros H0 H1.
  assert (wrapInt (speedup w + 1) = speedup w + 1) as Hwi.
  { unfold wrapInt. rewrite Z.mod_small; lia. }
  unfold removedBy, sweepRuns, sniffStep, housekeeping. cbn [speedup track].
  rewrite Hwi. destruct (Z.eqb_spec (speedup w + 1) 5000); [lia|]. done.
Qed.

Lemma short_run_notRemoved cfg k w inputs :
  0 <= speedup w → speedup w + Z.of_nat (length inputs) < 5000 →
  notRemoved cfg k w inputs.
Proof.
  revert w. induction inputs as [|i inputs IH]; intros w H0 H1; [done|].
  rewrite length_cons in H1.
  destruct (sniffStep_speedup_short cfg w i) as [Hr Hs]; [lia..|].
  split.
  - rewrite Hr. apply not_elem_of_nil.
  - apply IH; lia.
Qed.

(** C3 on the flow of frames of 2000 bytes, cut off by its fifth frame:
    of two more frames of it and a frame of another flow, only the
    latter is sent to the writer. *)
Lemma cutoff_is_final_witness :
  let cfg := defaultConfig in
  let w := doSniff cfg 0 (tcpFrames 5 2000) in
  let flw := {| packets := 5; bytecount := 9710; last := 5000; logged := false |} in
  let inputs := [tcpFrame 6000 2000; arpFrame 7000; tcpFrame 8000 100] in
  let W := sniffFrom cfg w inputs in
  writerchan W = writerchan w ++ (frameOf <$> forwarded cfg w inputs) ∧
  Forall (λ i, flowOf i ≠ sampleKey) (forwarded cfg w inputs) ∧
  (∃ flw', seen W !! sampleKey = Some flw' ∧ cutOff cfg flw' ∧
           last flw' = lastSeen sampleKey inputs (last flw)) ∧
  (∀ i, seen (sniffStep cfg w i) !! sampleKey = None →
        ∃ e, seen (track cfg w i) !! sampleKey = Some e ∧
             flowTimeout cfg < time_Sub (in_cleanup i) (last e)).
Proof.
  intros cfg w flw inputs.
  apply (cutoff_is_final cfg w sampleKey flw inputs).
  - apply sniffFrom_wf, map_Forall_empty.
  - vm_compute. reflexivity.
  - right. vm_compute. discriminate.
  - apply short_run_notRemoved; vm_compute; [discriminate | reflexivity].
  - vm_compute. reflexivity.
  - vm_compute. reflexivity.
Defined.

(** * Byte accounting *)

(** C5: the sampler leaves the entry of the frame's flow with a byte
    count that is the count before (0 for a new flow) plus
    [max 0 (len - 58)], reduced modulo 2^64 and so exactly that sum
    whenever it fits a [uint]; a frame of 58 bytes or less leaves the
    count as it was. Over a run from the start of the worker in which no
    sweep deletes the entry of [k], the byte count of [k] is the sum of
    these amounts over the frames of [k], as long as the sum fits. *)
Theorem byte_accounting :
  (∀ cfg w i, wfTable (seen w) →
     let old := bytecount (default zeroTrackedFlow (seen w !! flowOf i)) in
     let add := Z.max 0 (frameLen i - MINIMUM_IP_PACKET_SIZE) in
     ∃ flw, seen (track cfg w i) !! flowOf i = Some flw ∧
            bytecount flw = wrap (old + add) ∧
            (old + add < 2 ^ 64 → bytecount flw = old + add) ∧
            (frameLen i <= MINIMUM_IP_PACKET_SIZE → bytecount flw = old)) ∧
  (∀ cfg t0 k inputs,
     notRemoved cfg k (newWorker t0) inputs →
     ofFlow k inputs ≠ [] →
     totalPayload (ofFlow k inputs) < 2 ^ 64 →
     ∃ flw, seen (doSniff cfg t0 inputs) !! k = Some flw ∧
            bytecount flw = totalPayload (ofFlow k inputs)).
Proof.
  split.
  - intros cfg w i Hwf old add.
    destruct (updated_counters i w Hwf) as (_ & Hb & _).
    destruct (marked_fields cfg i w (updated i w)) as (_ & Hmb & _). cbn zeta in Hmb.
    pose proof (wf_default _ (flowOf i) Hwf) as [_ Hold]. fold old in Hold.
    eexists. split; [apply track_lookup|].
    rewrite Hmb, Hb. fold old. fold add. unfold payload. fold add.
    assert (0 <= add) by (unfold add; lia).
    split_and!; [done| |].
    + intros. apply wrap_small. lia.
    + intros. replace add with 0 by (unfold add; lia).
      rewrite Z.add_0_r. by apply wrap_small.
  - intros cfg t0 k inputs Hnr Hne Hfit. unfold doSniff.
    assert (wfTable (seen (newWorker t0))) as Hwf by apply map_Forall_empty.
    destruct (run_present cfg k inputs (newWorker t0) Hnr) as [flw Hflw]; [by right|].
    exists flw. split; [done|].
    destruct (run_counters cfg k inputs (newWorker t0) Hwf Hnr) as (_ & Hb & _).
    rewrite Hflw in Hb.
    cbn [seen newWorker] in Hb. rewrite lookup_empty in Hb.
    cbn [default from_option id zeroTrackedFlow bytecount] in Hb.
    rewrite Hb, Z.add_0_l. apply wrap_small.
    pose proof (totalPayload_nonneg (ofFlow k inputs)). lia.
Qed.

(** C5 on the 10 frames of 2000 bytes: 1942 bytes each, 19420 in all. *)
Lemma byte_accounting_witness :
  ∃ flw, seen (doSniff defaultConfig 0 (tcpFrames 10 2000)) !! sampleKey = Some flw ∧
         bytecount flw = totalPayload (ofFlow sampleKey (tcpFrames 10 2000)) ∧
         totalPayload (ofFlow sampleKey (tcpFrames 10 2000)) = 19420.
Proof.
  destruct (proj2 byte_accounting defaultConfig 0 sampleKey (tcpFrames 10 2000))
    as [flw [Hflw Hb]].
  - apply short_run_notRemoved; vm_compute; [discriminate | reflexivity].
  - vm_compute. discriminate.
  - vm_compute. reflexivity.
  - exists flw. split_and!; [done | done | vm_compute; reflexivity].
Defined.

(** * Packet counts of the entries *)

Lemma track_packetsWithin cfg w i B :
  packetsWithin B (seen w) → 0 <= B → B + 1 < 2 ^ 64 →
  packetsWithin (B + 1) (seen (track cfg w i)) ∧
  1 <= packets (updated i w).
Proof.
  intros Hin HB0 HB.
  assert (1 <= packets (updated i w) <= B + 1) as Hup.
  { unfold updated. cbn [packets touch].
    destruct (seen w !! flowOf i) as [flw|] eqn:E; cbn [default from_option id].
    - pose proof (Hin _ _ E) as Hflw. cbn beta in Hflw. rewrite wrap_small; lia.
    - cbn [zeroTrackedFlow packets]. rewrite wrap_small; lia. }
  split; [|lia].
  cbn [seen track]. apply map_Forall_insert_2.
  - destruct (marked_fields cfg i w (updated i w)) as (Hmp & _). cbn zeta in Hmp.
    by rewrite Hmp.
  - intros k flw Hk. pose proof (Hin _ _ Hk) as Hflw. cbn beta in *. lia.
Qed.

Lemma sweep_packetsWithin cfg w i B :
  packetsWithin B (seen w) → packetsWithin B (seen (sweep cfg w i)).
Proof.
  intros Hin k flw Hk. rewrite sweep_lookup in Hk.
  destruct (seen w !! k) as [flw'|] eqn:E; [|done].
  case_decide; [done|]. injection Hk as <-. by apply (Hin k).
Qed.

Lemma sniffStep_packetsWithin cfg w i B :
  packetsWithin B (seen w) → 0 <= B → B + 1 < 2 ^ 64 →
  packetsWithin (B + 1) (seen (sniffStep cfg w i)).
Proof.
  intros Hin HB0 HB k flw Hk. apply sniffStep_lookup_Some in Hk.
  by apply (proj1 (track_packetsWithin cfg w i B Hin HB0 HB) k).
Qed.

Lemma run_packetsWithin cfg w inputs B :
  packetsWithin B (seen w) → 0 <= B → B + Z.of_nat (length inputs) < 2 ^ 64 →
  packetsWithin (B + Z.of_nat (length inputs)) (seen (sniffFrom cfg w inputs)).
Proof.
  revert w B. induction inputs as [|i inputs IH]; intros w B Hin HB0 HB.
  - simpl. by rewrite Z.add_0_r.
  - rewrite length_cons in HB. rewrite sniffFrom_cons.
    replace (B + Z.of_nat (length (i :: inputs))) with (B + 1 + Z.of_nat (length inputs))
      by (rewrite length_cons; lia).
    apply IH; [|lia|lia]. apply sniffStep_packetsWithin; [done|lia|lia].
Qed.

(** C9: after any run of fewer than 2^64 frames from the start of the
    worker, every entry of the table has [packets >= 1]. The sampler
    and the sweep each keep every entry at one packet or more (the
    sampler below a count of 2^64 - 1); an entry that was not in the
    table before the sampler ran is the entry of the frame's flow and
    has counted that frame; and the count of an entry that an iteration
    keeps does not decrease. *)
Theorem packets_at_least_one :
  (∀ cfg t0 inputs k flw,
     Z.of_nat (length inputs) < 2 ^ 64 →
     seen (doSniff cfg t0 inputs) !! k = Some flw → 1 <= packets flw) ∧
  (∀ cfg w i B,
     packetsWithin B (seen w) → 0 <= B → B + 1 < 2 ^ 64 →
     packetsWithin (B + 1) (seen (track cfg w i)) ∧
     packetsWithin B (seen (sweep cfg w i)) ∧
     packetsWithin (B + 1) (seen (sniffStep cfg w i))) ∧
  (∀ cfg w i k flw,
     seen w !! k = None → seen (track cfg w i) !! k = Some flw →
     flowOf i = k ∧ packets flw = 1) ∧
  (∀ cfg w i B k flw flw',
     packetsWithin B (seen w) → 0 <= B → B + 1 < 2 ^ 64 →
     seen w !! k = Some flw → seen (sniffStep cfg w i) !! k = Some flw' →
     packets flw <= packets flw').
Proof.
  split_and!.
  - intros cfg t0 inputs k flw Hlen Hk.
    pose proof (run_packetsWithin cfg (newWorker t0) inputs 0) as Hrun.
    apply (Hrun (map_Forall_empty _)) in Hk; [|lia|lia]. cbn beta in Hk. lia.
  - intros cfg w i B Hin HB0 HB. split_and!.
    + by apply track_packetsWithin.
    + by apply sweep_packetsWithin.
    + by apply sniffStep_packetsWithin.
  - intros cfg w i k flw Hnone Hk.
    destruct (decide (flowOf i = k)) as [Hf|Hf].
    + split; [done|]. subst k. rewrite track_lookup in Hk. injection Hk as <-.
      destruct (marked_fields cfg i w (updated i w)) as (Hmp & _). cbn zeta in Hmp.
      rewrite Hmp. unfold updated. by rewrite Hnone.
    + rewrite track_lookup_ne in Hk by done. congruence.
  - intros cfg w i B k flw flw' Hin HB0 HB Hk Hk'.
    apply sniffStep_lookup_Some in Hk'.
    destruct (decide (flowOf i = k)) as [Hf|Hf].
    + subst k. rewrite track_lookup in Hk'. injection Hk' as <-.
      destruct (marked_fields cfg i w (updated i w)) as (Hmp & _). cbn zeta in Hmp.
      rewrite Hmp. unfold updated. rewrite Hk. cbn [default from_option id packets touch].
      pose proof (Hin _ _ Hk) as Hflw. cbn beta in Hflw. rewrite wrap_small; lia.
    + rewrite track_lookup_ne in Hk' by done. rewrite Hk in Hk'. by injection Hk' as <-.
Qed.

(** C9 on the 10 frames of 2000 bytes. *)
Lemma packets_at_least_one_witness :
  let flw := {| packets := 10; bytecount := 19420; last := 10000; logged := false |} in
  seen (doSniff defaultConfig 0 (tcpFrames 10 2000)) !! sampleKey = Some flw ∧
  1 <= packets flw.
Proof.
  intros flw.
  assert (seen (doSniff defaultConfig 0 (tcpFrames 10 2000)) !! sampleKey = Some flw)
    as Hflw by (vm_compute; reflexivity).
  split; [done|].
  apply (proj1 packets_at_least_one defaultConfig 0 (tcpFrames 10 2000) sampleKey flw).
  - vm_compute. reflexivity.
  - exact Hflw.
Defined.

(** * A packet cutoff of 0 or 1 *)

Lemma cutoff_one_forwards_nothing cfg w inputs B :
  flowPacketCutoff cfg <= 1 →
  packetsWithin B (seen w) → 0 <= B → B + Z.of_nat (length inputs) < 2 ^ 64 →
  forwarded cfg w inputs = [].
Proof.
  intros Hpc. revert w B.
  induction inputs as [|i inputs IH]; intros w B Hin HB0 HB; [done|].
  rewrite length_cons in HB. cbn [forwarded].
  destruct (track_packetsWithin cfg w i B Hin HB0) as [_ Hup]; [lia|].
  assert (accepted cfg i w = false) as ->.
  { unfold accepted, underCutoff. apply andb_false_iff. right. apply Z.ltb_ge. lia. }
  cbn [app]. apply (IH _ (B + 1)); [|lia|lia].
  apply sniffStep_packetsWithin; [done|lia|lia].
Qed.

(** C10: with a packet cutoff of 1 or 0, a run of fewer than 2^64
    frames from the start of the worker sends no frame to the writer:
    the channel stays empty and the output counters stay 0. The first
    frame of a flow already brings its packet count to 1, which is not
    below the cutoff. *)
Theorem packet_cutoff_one_blocks_all cfg t0 inputs :
  flowPacketCutoff cfg <= 1 →
  Z.of_nat (length inputs) < 2 ^ 64 →
  let W := doSniff cfg t0 inputs in
  forwarded cfg (newWorker t0) inputs = [] ∧
  writerchan W = [] ∧
  outputPackets W = 0 ∧
  mOutput (metrics W) = 0.
Proof.
  intros Hpc Hlen W.
  assert (forwarded cfg (newWorker t0) inputs = []) as Hfw.
  { apply (cutoff_one_forwards_nothing cfg _ _ 0); [done| |lia|lia].
    apply map_Forall_empty. }
  assert (writerchan W = []) as Hchan.
  { unfold W, doSniff. by rewrite writerchan_run, Hfw. }
  pose proof (countsInv_run cfg (newWorker t0) inputs 0 (countsInv_new t0))
    as (_ & _ & Ho & _ & Hm & Hout).
  fold (doSniff cfg t0 inputs) in Ho, Hm, Hout. fold W in Ho, Hm, Hout.
  rewrite Hchan in Hout. simpl in Hout.
  split_and!; [done | done | lia | lia].
Qed.

(** C10 on 200 frames of one flow with [packetcutoff=1]. *)
Lemma packet_cutoff_one_blocks_all_witness :
  let cfg := withCutoffs 8192 1 in
  let inputs := tcpFrames 200 100 in
  let W := doSniff cfg 0 inputs in
  forwarded cfg (newWorker 0) inputs = [] ∧
  writerchan W = [] ∧
  outputPackets W = 0 ∧
  mOutput (metrics W) = 0.
Proof.
  intros cfg inputs.
  apply (packet_cutoff_one_blocks_all cfg 0 inputs).
  - vm_compute. discriminate.
  - vm_compute. reflexivity.
Defined.

(** * The large-flow line *)

Lemma totalPayload_replicate n i : totalPayload (replicate n i) = Z.of_nat n * payload i.
Proof. induction n as [|n IH]; [done|]. cbn [replicate]. rewrite totalPayload_cons. lia. Qed.

(** [n] equal frames of one flow that stay below both cutoffs: the
    entry sums their bytes and no large-flow line is logged. *)
Lemma equal_frames_unlogged cfg t0 n i :
  time_Sub (in_cleanup i) (in_now i) <= flowTimeout cfg →
  Z.of_nat (S n) * payload i < flowByteCutoff cfg →
  Z.of_nat (S n) < flowPacketCutoff cfg →
  Z.of_nat (S n) < 2 ^ 64 →
  let W := doSniff cfg t0 (replicate (S n) i) in
  (∃ flw, seen W !! flowOf i = Some flw ∧
          bytecount flw = wrap (Z.of_nat (S n) * payload i)) ∧
  largeLines (flowOf i) (logLines W) = [].
Proof.
  intros Ht Hbytes Hpc Hlen W.
  set (inputs := replicate (S n) i) in *.
  assert (Forall (λ j, flowOf j = flowOf i) inputs) as Hflow.
  { by apply Forall_replicate. }
  assert (notRemoved cfg (flowOf i) (newWorker t0) inputs) as Hnr.
  { by apply single_flow_notRemoved, Forall_replicate. }
  assert (wfTable (seen (newWorker t0))) as Hwf by apply map_Forall_empty.
  assert (length inputs = S n) as Hlength by apply length_replicate.
  assert (totalPayload inputs = Z.of_nat (S n) * payload i) as Htot
    by apply totalPayload_replicate.
  split.
  - destruct (run_present cfg (flowOf i) inputs (newWorker t0) Hnr) as [flw Hflw].
    { right. by rewrite (ofFlow_all _ _ Hflow). }
    destruct (run_counters cfg (flowOf i) inputs (newWorker t0) Hwf Hnr) as (_ & Hb & _).
    rewrite Hflw, (ofFlow_all _ _ Hflow), Htot in Hb.
    cbn [seen newWorker] in Hb. rewrite lookup_empty in Hb.
    cbn [default from_option id zeroTrackedFlow bytecount] in Hb.
    rewrite Z.add_0_l in Hb. by exists flw.
  - unfold W, doSniff.
    rewrite (single_flow_quiet cfg (flowOf i) (flowOf i) inputs (newWorker t0)).
    + done.
    + done.
    + apply lookup_empty.
    + done.
    + done.
    + by rewrite Htot.
    + by rewrite Hlength.
    + by rewrite Hlength.
Qed.

(** C6, as stated, fails: with [bytecutoff=2^35] and
    [packetcutoff=2^30], a flow of 1900000 frames of 9216 bytes stays
    below both cutoffs, so every frame is sent to the writer; its byte
    count, 17400200000, is over 16 GiB, and no large-flow line is
    logged for it. *)
Lemma large_flow_one_line_refuted :
  let cfg := withCutoffs (2 ^ 35) (2 ^ 30) in
  let inputs := replicate (S (Z.to_nat 1899999)) (tcpFrame 0 9216) in
  let W := doSniff cfg 0 inputs in
  (∃ flw, seen W !! sampleKey = Some flw ∧ bytecount flw = 17400200000 ∧
          LARGE_FLOW_SIZE < bytecount flw) ∧
  length (largeLines sampleKey (logLines W)) = 0%nat.
Proof.
  intros cfg inputs W.
  assert (payload (tcpFrame 0 9216) = 9158) as Hpay by (vm_compute; reflexivity).
  assert (Z.of_nat (S (Z.to_nat 1899999)) = 1900000) as Hn.
  { rewrite Nat2Z.inj_succ, Z2Nat.id; [reflexivity|]. apply Z.leb_le. reflexivity. }
  destruct (equal_frames_unlogged cfg 0 (Z.to_nat 1899999) (tcpFrame 0 9216))
    as [(flw & Hflw & Hb) Hquiet].
  - vm_compute. discriminate.
  - rewrite Hn, Hpay. vm_compute. reflexivity.
  - rewrite Hn. vm_compute. reflexivity.
  - rewrite Hn. vm_compute. reflexivity.
  - split; [|exact (f_equal length Hquiet)].
    assert (bytecount flw = 17400200000) as Hbytes.
    { rewrite Hb, Hn, Hpay. vm_compute. reflexivity. }
    exists flw. split; [exact Hflw|]. split; [exact Hbytes|].
    rewrite Hbytes. vm_compute. reflexivity.
Qed.

Lemma logsLarge_spec cfg i w :
  logsLarge cfg i w =
    negb (logged (default zeroTrackedFlow (seen w !! flowOf i))) &&
    (negb (accepted cfg i w) && (LARGE_FLOW_SIZE <? bytecount (updated i w))).
Proof.
  unfold logsLarge, largeUnlogged.
  change (logged (updated i w)) with (logged (default zeroTrackedFlow (seen w !! flowOf i))).
  destruct (logged _), (accepted cfg i w), (LARGE_FLOW_SIZE <? _); done.
Qed.

(** The flag and the lines of [k] over a run that keeps its entry. *)
Lemma large_lines_run cfg k inputs w :
  notRemoved cfg k w inputs →
  let flag0 := logged (default zeroTrackedFlow (seen w !! k)) in
  let W := sniffFrom cfg w inputs in
  logged (default zeroTrackedFlow (seen W !! k)) = flag0 || dropsLarge cfg k w inputs ∧
  length (largeLines k (logLines W)) =
    (length (largeLines k (logLines w)) +
       if flag0 then 0 else if dropsLarge cfg k w inputs then 1 else 0)%nat.
Proof.
  revert w. induction inputs as [|i inputs IH]; intros w Hnr; cbn zeta.
  - cbn [sniffFrom fold_left dropsLarge]. rewrite orb_false_r.
    split; [done|]. destruct (logged _); lia.
  - destruct Hnr as [Hk Hnr]. specialize (IH _ Hnr). cbn zeta in IH.
    destruct IH as [IHf IHl]. rewrite sniffFrom_cons, IHf, IHl.
    rewrite sniffStep_largeLines, length_app, (sniffStep_entry cfg w i k Hk).
    cbn [dropsLarge]. rewrite logsLarge_spec.
    destruct (decide (flowOf i = k)) as [Hf|Hf].
    + rewrite bool_decide_eq_true_2 by done. subst k.
      set (f0 := logged (default zeroTrackedFlow (seen w !! flowOf i))).
      set (a := accepted cfg i w).
      set (big := LARGE_FLOW_SIZE <? bytecount (updated i w)).
      set (rest := dropsLarge cfg (flowOf i) (sniffStep cfg w i) inputs).
      assert (logged (updated i w) = f0) as Hlu by done.
      clearbody f0 a big rest. revert Hlu. generalize (updated i w). intros u Hu.
      clear IHf IHl.
      destruct f0, a, big, rest; cbn [negb andb orb default from_option id length app];
        rewrite ?Hu; cbn [markLogged logged]; split; (done || lia).
    + rewrite bool_decide_eq_false_2 by done. cbn [andb orb].
      rewrite andb_false_r. cbn [length]. split; [done|].
      destruct (logged _), (dropsLarge _ _ _ _); lia.
Qed.

Lemma largeLines_run_app cfg k inputs w :
  ∃ extra, largeLines k (logLines (sniffFrom cfg w inputs)) =
             largeLines k (logLines w) ++ extra.
Proof.
  revert w. induction inputs as [|i inputs IH]; intros w.
  - exists []. by rewrite app_nil_r.
  - destruct (IH (sniffStep cfg w i)) as [extra Hextra].
    rewrite sniffFrom_cons, Hextra, sniffStep_largeLines, <- app_assoc. eauto.
Qed.

(** C6, amended: over a run in which no sweep deletes the entry of a
    flow that has not been logged yet, the number of large-flow lines
    logged for the flow is exactly one if some frame of the flow is
    dropped while the updated byte count is over 16 GiB, and none
    otherwise, however many frames follow; the flag of the entry is set
    in exactly that case. A flow whose frames are all sent to the
    writer logs no line whatever its byte count. Once the flag is set
    no further line is logged. *)
Theorem large_flow_logged_once cfg w k inputs :
  notRemoved cfg k w inputs →
  let W := sniffFrom cfg w inputs in
  (logged (default zeroTrackedFlow (seen w !! k)) = false →
     length (largeLines k (logLines W)) =
       (length (largeLines k (logLines w)) +
          if dropsLarge cfg k w inputs then 1 else 0)%nat ∧
     logged (default zeroTrackedFlow (seen W !! k)) = dropsLarge cfg k w inputs) ∧
  (logged (default zeroTrackedFlow (seen w !! k)) = true →
     largeLines k (logLines W) = largeLines k (logLines w) ∧
     logged (default zeroTrackedFlow (seen W !! k)) = true).
Proof.
  intros Hnr W.
  destruct (large_lines_run cfg k inputs w Hnr) as [Hf Hl]. fold W in Hf, Hl.
  split; intros Hflag; rewrite Hflag in Hf, Hl; cbn [orb] in Hf.
  - done.
  - split; [|done].
    destruct (largeLines_run_app cfg k inputs w) as [extra Hextra]. fold W in Hextra.
    rewrite Hextra, length_app in Hl.
    assert (extra = []) as -> by (apply nil_length_inv; lia).
    by rewrite Hextra, app_nil_r.
Qed.

(** The amended C6 on a flow 5000 bytes short of 16 GiB, with the
    default cutoffs: of three more frames of 9216 bytes, the first is
    dropped with the count over 16 GiB, and one line is logged. *)
Lemma large_flow_logged_once_witness :
  let cfg := defaultConfig in
  let flw := {| packets := 1875000; bytecount := LARGE_FLOW_SIZE - 5000;
                last := 0; logged := false |} in
  let w := workerWith {[ sampleKey := flw ]} in
  let inputs := tcpFrames 3 9216 in
  let W := sniffFrom cfg w inputs in
  dropsLarge cfg sampleKey w inputs = true ∧
  length (largeLines sampleKey (logLines W)) =
    (length (largeLines sampleKey (logLines w)) +
       if dropsLarge cfg sampleKey w inputs then 1 else 0)%nat ∧
  logged (default zeroTrackedFlow (seen W !! sampleKey)) =
    dropsLarge cfg sampleKey w inputs.
Proof.
  intros cfg flw w inputs W.
  split; [vm_compute; reflexivity|].
  apply (proj1 (large_flow_logged_once cfg w sampleKey inputs
                  ltac:(apply short_run_notRemoved; vm_compute;
                        [discriminate | reflexivity]))).
  vm_compute. reflexivity.
Defined.

(** * The expiry sweep *)

Lemma expiredFlows_nil cfg now table :
  (∀ k flw, table !! k = Some flw → ¬ flowTimeout cfg < time_Sub now (last flw)) →
  expiredFlows cfg now table = [].
Proof.
  intros Hnone. apply elem_of_nil_inv. intros [k flw] Hin.
  apply elem_of_expiredFlows in Hin as [Hk Hexp]. by apply (Hnone k flw).
Qed.

(** C4: the sweep at time [now] takes out of the table the entries with
    [now - last > flowTimeout] and leaves every other entry as it was;
    the entries it takes out, each once, are those whose byte counts it
    appends to the observations of the flow-size histogram, and their
    number is added to [removedFlows]. A second sweep at the same time
    changes neither the table nor the histogram nor the count, and no
    later sweep finds a key the first has taken out, unless a frame has
    made a new entry for it. *)
Theorem sweep_removes_expired cfg w i :
  let now := in_cleanup i in
  let expired := λ flw, flowTimeout cfg < time_Sub now (last flw) in
  let W := sweep cfg w i in
  (∀ k, seen W !! k =
          match seen w !! k with
          | Some flw => if decide (expired flw) then None else Some flw
          | None => None
          end) ∧
  (∃ removed : list (FiveTuple * trackedFlow),
     NoDup removed.*1 ∧
     (∀ k flw, (k, flw) ∈ removed ↔ seen w !! k = Some flw ∧ expired flw) ∧
     mFlowSize (metrics W) = mFlowSize (metrics w) ++ (bytecount <$> removed.*2) ∧
     removedFlows W = wrap (removedFlows w + Z.of_nat (length removed)) ∧
     mExpired (metrics W) = Z.of_nat (length removed)) ∧
  (∀ j, in_cleanup j = now →
     seen (sweep cfg W j) = seen W ∧
     mFlowSize (metrics (sweep cfg W j)) = mFlowSize (metrics W) ∧
     removedFlows (sweep cfg W j) = removedFlows W) ∧
  (∀ j k flw, seen w !! k = Some flw → expired flw →
     seen W !! k = None ∧ k ∉ (expiredFlows cfg (in_cleanup j) (seen W)).*1).
Proof.
  intros now expired W. split_and!.
  - intros k. apply sweep_lookup.
  - exists (expiredFlows cfg now (seen w)). split_and!.
    + apply NoDup_expired_keys.
    + intros k flw. apply elem_of_expiredFlows.
    + done.
    + cbn [removedFlows W sweep]. by rewrite !length_fmap.
    + cbn [mExpired metrics W sweep]. by rewrite !length_fmap.
  - intros j Hj.
    assert (expiredFlows cfg (in_cleanup j) (seen W) = []) as Hnil.
    { rewrite Hj. apply expiredFlows_nil. intros k flw Hk.
      unfold W in Hk. rewrite sweep_lookup in Hk.
      destruct (seen w !! k) as [flw'|]; [|done].
      case_decide as Hexp; [done|]. by injection Hk as <-. }
    cbn [seen sweep metrics mFlowSize removedFlows]. rewrite Hnil.
    cbn [fmap list_fmap length deleteAll fold_left]. rewrite app_nil_r.
    split_and!; [done|done|].
    change (Z.of_nat 0) with 0. rewrite Z.add_0_r.
    apply wrap_small. unfold W. cbn [removedFlows sweep]. apply wrap_range.
  - intros j k flw Hk Hexp.
    assert (seen W !! k = None) as Hnone.
    { unfold W. rewrite sweep_lookup, Hk. by rewrite decide_True. }
    split; [done|].
    intros (flw' & Hk' & _)%elem_of_expired_keys. congruence.
Qed.

(** C4 on the flow of 10 frames of 2000 bytes, last seen at 10 microseconds: the
    sweep at 6 s takes it out and observes its 19420 bytes; no later
    sweep finds it. *)
Lemma sweep_removes_expired_witness :
  let cfg := defaultConfig in
  let w := doSniff cfg 0 (tcpFrames 10 2000) in
  let i := tcpFrame (6 * 10 ^ 9) 100 in
  let W := sweep cfg w i in
  mFlowSize (metrics W) = [19420] ∧
  seen W !! sampleKey = None ∧
  sampleKey ∉ (expiredFlows cfg (in_cleanup i) (seen W)).*1.
Proof.
  intros cfg w i W. split; [vm_compute; reflexivity|].
  apply (proj2 (proj2 (proj2 (sweep_removes_expired cfg w i))) i sampleKey
           {| packets := 10; bytecount := 19420; last := 10000; logged := false |}).
  - vm_compute. reflexivity.
  - vm_compute. reflexivity.
Defined.

(** * Frames without an IP layer *)

Lemma decodeFlow_no_ip L decoded acc :
  LayerTypeIPv4 ∉ decoded → LayerTypeIPv6 ∉ decoded →
  proto (fold_left (setLayer L) decoded acc) = proto acc ∧
  networkFlow (fold_left (setLayer L) decoded acc) = networkFlow acc.
Proof.
  revert acc. induction decoded as [|t decoded IH]; intros acc H4 H6; [done|].
  apply not_elem_of_cons in H4 as [? H4]. apply not_elem_of_cons in H6 as [? H6].
  cbn [fold_left]. destruct (IH (setLayer L acc t) H4 H6) as [-> ->].
  by destruct t.
Qed.

(** Below the IP layer a chain holds Ethernet and 802.1Q only. *)
Lemma chained_no_ip a rest :
  chained a rest = true →
  a = LayerTypeEthernet ∨ a = LayerTypeDot1Q →
  LayerTypeIPv4 ∉ rest → LayerTypeIPv6 ∉ rest →
  Forall (λ t, t = LayerTypeDot1Q) rest.
Proof.
  revert a. induction rest as [|b rest IH]; intros a Hch Ha H4 H6; [constructor|].
  apply not_elem_of_cons in H4 as [? H4]. apply not_elem_of_cons in H6 as [? H6].
  cbn [chained] in Hch. apply andb_true_iff in Hch as [Hn Hch].
  assert (b = LayerTypeDot1Q) as ->.
  { destruct Ha as [-> | ->]; destruct b; done. }
  constructor; [done|]. apply (IH LayerTypeDot1Q); auto.
Qed.

Lemma decodeFlow_link_only L decoded acc :
  Forall (λ t, t = LayerTypeEthernet ∨ t = LayerTypeDot1Q) decoded →
  fold_left (setLayer L) decoded acc = acc.
Proof.
  intros Hall. revert acc. induction Hall as [|t decoded Ht _ IH]; intros acc; [done|].
  cbn [fold_left]. rewrite IH. by destruct Ht as [-> | ->].
Qed.

Lemma flowOf_link_only i :
  LayerTypeIPv4 ∉ in_decoded i → LayerTypeIPv6 ∉ in_decoded i →
  parserChain (in_decoded i) = true →
  flowOf i = zeroFiveTuple.
Proof.
  intros H4 H6 Hchain.
  unfold flowOf, decodeFlow. apply decodeFlow_link_only.
  unfold parserChain in Hchain.
  destruct (in_decoded i) as [|a rest]; [constructor|].
  apply andb_true_iff in Hchain as [Ha Hch]. apply bool_decide_eq_true in Ha.
  apply not_elem_of_cons in H4 as [_ H4]. apply not_elem_of_cons in H6 as [_ H6].
  constructor; [by left|].
  eapply Forall_impl; [apply (chained_no_ip a rest); auto|].
  intros t ->. by right.
Qed.

(** C8: when neither an IPv4 nor an IPv6 layer is decoded, the protocol
    and the network flow of the key are the zero values. The parser
    reaches TCP and UDP through an IP layer only, so the whole key of
    such a frame is the zero five-tuple: the sampler counts the frame,
    and updates (or creates) the one entry of that key, leaving every
    other entry alone. *)
Theorem unclassified_key cfg w i :
  LayerTypeIPv4 ∉ in_decoded i →
  LayerTypeIPv6 ∉ in_decoded i →
  proto (flowOf i) = 0 ∧
  networkFlow (flowOf i) = zeroFlow ∧
  (parserChain (in_decoded i) = true →
     flowOf i = zeroFiveTuple ∧
     (∀ j, LayerTypeIPv4 ∉ in_decoded j → LayerTypeIPv6 ∉ in_decoded j →
           parserChain (in_decoded j) = true → flowOf j = flowOf i) ∧
     totalPackets (track cfg w i) = wrap (totalPackets w + 1) ∧
     (∃ flw, seen (track cfg w i) !! zeroFiveTuple = Some flw ∧
             packets flw =
               wrap (packets (default zeroTrackedFlow (seen w !! zeroFiveTuple)) + 1) ∧
             last flw = in_now i) ∧
     (∀ k, k ≠ zeroFiveTuple → seen (track cfg w i) !! k = seen w !! k)).
Proof.
  intros H4 H6.
  destruct (decodeFlow_no_ip (in_layers i) (in_decoded i) zeroFiveTuple H4 H6)
    as [Hp Hn].
  split_and!; [done|done|].
  intros Hchain.
  pose proof (flowOf_link_only i H4 H6 Hchain) as Hzero.
  split_and!; [done| |done| |].
  - intros j Hj4 Hj6 Hjchain. rewrite Hzero. by apply flowOf_link_only.
  - rewrite <- Hzero. eexists. split; [apply track_lookup|].
    destruct (marked_fields cfg i w (updated i w)) as (Hmp & _ & Hml).
    cbn zeta in Hmp, Hml. by rewrite Hmp, Hml.
  - intros k Hk. apply track_lookup_ne. congruence.
Qed.

(** C8 on two ARP frames: both are counted under the zero key. *)
Lemma unclassified_key_witness :
  let w := sniffStep defaultConfig (newWorker 0) (arpFrame 1000) in
  flowOf (arpFrame 2000) = zeroFiveTuple ∧
  ∃ flw, seen (track defaultConfig w (arpFrame 2000)) !! zeroFiveTuple = Some flw ∧
         packets flw = 2.
Proof.
  intros w.
  destruct (unclassified_key defaultConfig w (arpFrame 2000)) as (_ & _ & H).
  - by intros [?|?%elem_of_nil]%elem_of_cons.
  - by intros [?|?%elem_of_nil]%elem_of_cons.
  - destruct H as (Hz & _ & _ & (flw & Hflw & Hp & _) & _); [reflexivity|].
    split; [exact Hz|]. exists flw. split; [exact Hflw|]. exact Hp.
Defined.

(** * Renaming the capture file *)

Lemma strlen_app s1 s2 :
  String.length (s1 +:+ s2) = (String.length s1 + String.length s2)%nat.
Proof. induction s1 as [|c s1 IH]; simpl; [done | by rewrite IH]. Qed.

Lemma appendInt_width (width : nat) (bound : Z) x :
  forallb (λ n, Nat.eqb (String.length (appendInt (Z.of_nat n) width)) width)
    (seq 0 (Z.to_nat bound)) = true →
  0 <= x < bound →
  String.length (appendInt x width) = width.
Proof.
  intros Hall Hx. rewrite forallb_forall in Hall.
  specialize (Hall (Z.to_nat x)). rewrite Z2Nat.id in Hall by lia.
  apply Nat.eqb_eq, Hall, in_seq. lia.
Qed.

Lemma appendInt_2 x : 0 <= x < 100 → String.length (appendInt x 2) = 2%nat.
Proof. apply (appendInt_width 2 100). vm_compute. reflexivity. Qed.

Lemma appendInt_4 x : 0 <= x < 10000 → String.length (appendInt x 4) = 4%nat.
Proof. apply (appendInt_width 4 10000). vm_compute. reflexivity. Qed.

(** The stamp of a time of the years 0 to 9999 has the 35 characters of
    [YYYY/MM/DD/YYYY-MM-DDTHH-MM-SS.pcap]. *)
Lemma formatStamp_length t :
  0 <= lt_year t < 10000 → 0 <= lt_month t < 100 → 0 <= lt_day t < 100 →
  0 <= lt_hour t < 100 → 0 <= lt_minute t < 100 → 0 <= lt_second t < 100 →
  String.length (formatStamp t) = 35%nat.
Proof.
  intros. unfold formatStamp. rewrite !strlen_app.
  rewrite !appendInt_2, !appendInt_4 by done. reflexivity.
Qed.

#[global] Instance toyFileSystemLaws : FileSystemLaws ToyFS ToyError.
Proof.
  split.
  - intros fs src dst Hsrc. cbn in Hsrc. apply bool_decide_eq_false in Hsrc.
    exists ENOENT, fs. cbn. unfold toyRename. by rewrite decide_False.
  - intros fs src dst fs'. cbn. unfold toyRename.
    destruct (decide (src ∈ _)); [|by intros [=]].
    destruct (decide (dst ∈ _)); [by intros [=]|].
    destruct (decide (toyDir dst ∈ _)); [|by intros [=]].
    intros [= <-]. cbn. apply bool_decide_eq_true. set_solver.
Qed.

Section FileManager.
Context {FS error : Type} `{FileSystemLaws FS error}.

(** C7: [renamePcap] appends [.gz] to the source name and to the
    stamp [YYYY/MM/DD/YYYY-MM-DDTHH-MM-SS.pcap] exactly when
    compression is on, and renames the source to the stamp joined to
    [outputPath]. It returns the error of [os.MkdirAll] on the
    directory of the new name; when the directory is made it returns
    [nil] if the source names nothing, the error of [os.Rename] if
    that is not an [os.IsNotExist] error, and [nil] after a rename
    that succeeds, in which case the new name names a file. *)
Theorem renamePcap_outcomes (cfg : Config) (now : LocalTime)
    (tempName outputPath : string) (fs : FS) :
  let src := if writeCompressed cfg then tempName +:+ ".gz" else tempName in
  let stamp :=
    if writeCompressed cfg then formatStamp now +:+ ".gz" else formatStamp now in
  let dst := Join outputPath stamp in
  let result := renamePcap cfg now tempName outputPath fs in
  (∀ e fs1, MkdirAll (Dir dst) 511 fs = (Some e, fs1) → result = (Some e, fs1, [])) ∧
  (∀ fs1, MkdirAll (Dir dst) 511 fs = (None, fs1) →
     (fileExists fs1 src = false → result.1.1 = None) ∧
     (∀ e fs2, Rename src dst fs1 = (Some e, fs2) → IsNotExist e = true →
        result = (None, fs2, [])) ∧
     (∀ e fs2, Rename src dst fs1 = (Some e, fs2) → IsNotExist e = false →
        result = (Some e, fs2, [])) ∧
     (∀ fs2, Rename src dst fs1 = (None, fs2) →
        result = (None, fs2, ["moved " +:+ src +:+ " to " +:+ dst]) ∧
        fileExists fs2 dst = true)).
Proof.
  intros src stamp dst result. split.
  - intros e fs1 Hmk. unfold result, renamePcap. fold src stamp dst. by rewrite Hmk.
  - intros fs1 Hmk.
    assert (result =
      match Rename src dst fs1 with
      | (Some err, fs2) =>
          if negb (IsNotExist err) then (Some err, fs2, []) else (None, fs2, [])
      | (None, fs2) => (None, fs2, ["moved " +:+ src +:+ " to " +:+ dst])
      end) as Hres.
    { unfold result, renamePcap. fold src stamp dst. by rewrite Hmk. }
    split_and!.
    + intros Hmissing.
      destruct (rename_missing fs1 src dst Hmissing) as (e & fs2 & Hren & He).
      by rewrite Hres, Hren, He.
    + intros e fs2 Hren He. by rewrite Hres, Hren, He.
    + intros e fs2 Hren He. by rewrite Hres, Hren, He.
    + intros fs2 Hren. split; [by rewrite Hres, Hren|].
      by apply (rename_moves fs1 src dst).
Qed.
End FileManager.

(** C7 on the small file system, with compression on: the file
    [eth0_current.pcap.tmp.gz] goes to the dated tree under [out]. *)
Lemma renamePcap_outcomes_witness :
  let cfg := {| packetTimeInterval := 5 * 10 ^ 9; flowTimeout := 5 * 10 ^ 9;
                flowByteCutoff := 8192; flowPacketCutoff := 100;
                writeCompressed := true |} in
  let fs := toyWith ["eth0_current.pcap.tmp.gz"] in
  let dst := "out/2017/03/09/2017-03-09T14-05-07.pcap.gz" in
  let fs1 := {| toyFiles := toyFiles fs; toyDirs := {["out/2017/03/09"]} ∪ toyDirs fs |} in
  let fs2 := {| toyFiles := {[dst]} ∪ (toyFiles fs1 ∖ {["eth0_current.pcap.tmp.gz"]});
                toyDirs := toyDirs fs1 |} in
  renamePcap cfg sampleTime "eth0_current.pcap.tmp" "out" fs =
    (None, fs2, ["moved eth0_current.pcap.tmp.gz to " +:+ dst]) ∧
  fileExists fs2 dst = true.
Proof.
  intros cfg fs dst fs1 fs2.
  destruct (renamePcap_outcomes cfg sampleTime "eth0_current.pcap.tmp" "out" fs)
    as [_ Hmade].
  destruct (Hmade fs1) as (_ & _ & _ & Hok); [vm_compute; reflexivity|].
  apply (Hok fs2). vm_compute. reflexivity.
Defined.

(** * Further properties of the capture loop *)

(** ** The head of every flow *)

Lemma sniffStep_default_entry cfg w i k :
  k ∉ removedBy cfg w i →
  flowOf i = k →
  let e := default zeroTrackedFlow (seen (sniffStep cfg w i) !! k) in
  packets e = packets (updated i w) ∧ bytecount e = bytecount (updated i w) ∧
  last e = last (updated i w).
Proof.
  intros Hk Hf. cbn zeta. rewrite (sniffStep_entry cfg w i k Hk), decide_True by done.
  cbn [default from_option id]. apply marked_fields.
Qed.

Lemma take_totalPayload_le n l : totalPayload (take n l) <= totalPayload l.
Proof.
  rewrite <- (take_drop n l) at 2. rewrite totalPayload_app.
  pose proof (totalPayload_nonneg (drop n l)). lia.
Qed.

Lemma head_prefix_from cfg k inputs w :
  wfTable (seen w) →
  notRemoved cfg k w inputs →
  let e0 := default zeroTrackedFlow (seen w !! k) in
  packets e0 + Z.of_nat (length (ofFlow k inputs)) < 2 ^ 64 →
  bytecount e0 + totalPayload (ofFlow k inputs) < 2 ^ 64 →
  ∃ n : nat,
    ofFlow k (forwarded cfg w inputs) = take n (ofFlow k inputs) ∧
    (n ≠ 0%nat →
       packets e0 + Z.of_nat n < flowPacketCutoff cfg ∧
       bytecount e0 + totalPayload (take n (ofFlow k inputs)) < flowByteCutoff cfg).
Proof.
  revert w. induction inputs as [|i inputs IH]; intros w Hwf Hnr e0 Hp Hb.
  - exists 0%nat. split; [done|]. by intros [].
  - destruct Hnr as [Hk Hnr].
    pose proof (wf_default (seen w) k Hwf) as [Hp0 Hb0]. fold e0 in Hp0, Hb0.
    pose proof (totalPayload_nonneg (ofFlow k inputs)) as Hnn.
    cbn [forwarded].
    destruct (decide (flowOf i = k)) as [Hf|Hf].
    + rewrite ofFlow_cons_eq in Hp, Hb |- * by done.
      rewrite length_cons in Hp. rewrite totalPayload_cons in Hb.
      pose proof (payload_nonneg i) as Hpay.
      destruct (updated_counters i w Hwf) as (Hup & Hub & _).
      rewrite Hf in Hup, Hub. fold e0 in Hup, Hub.
      rewrite wrap_small in Hup by lia. rewrite wrap_small in Hub by lia.
      destruct (sniffStep_default_entry cfg w i k Hk Hf) as (He1p & He1b & _).
      destruct (IH (sniffStep cfg w i) (sniffStep_wf cfg w i Hwf) Hnr) as (n & Hn & Hbound).
      { rewrite He1p, Hup. lia. }
      { rewrite He1b, Hub. lia. }
      rewrite He1p, He1b, Hup, Hub in Hbound.
      destruct (accepted cfg i w) eqn:Hacc.
      * exists (S n). cbn [app]. rewrite ofFlow_cons_eq by done. cbn [take].
        split; [by rewrite Hn|]. intros _.
        unfold accepted, underCutoff in Hacc. rewrite Hup, Hub in Hacc.
        apply andb_true_iff in Hacc as [Hab Hap].
        apply Z.ltb_lt in Hab, Hap. rewrite totalPayload_cons.
        destruct n as [|n].
        -- rewrite take_0. cbn [totalPayload foldr]. lia.
        -- destruct Hbound as [? ?]; [done|]. lia.
      * exists 0%nat. cbn [app take]. split; [|by intros []].
        rewrite Hn. destruct n as [|n]; [done|]. exfalso.
        destruct Hbound as [Hbp Hbb]; [done|].
        pose proof (totalPayload_nonneg (take (S n) (ofFlow k inputs))).
        unfold accepted, underCutoff in Hacc. rewrite Hup, Hub in Hacc.
        apply andb_false_iff in Hacc as [Hacc|Hacc]; apply Z.ltb_ge in Hacc; lia.
    + rewrite ofFlow_cons_ne in Hp, Hb |- * by done.
      assert (ofFlow k ((if accepted cfg i w then [i] else []) ++
                forwarded cfg (sniffStep cfg w i) inputs) =
              ofFlow k (forwarded cfg (sniffStep cfg w i) inputs)) as ->.
      { destruct (accepted cfg i w); [|done]. cbn [app]. by apply ofFlow_cons_ne. }
      assert (default zeroTrackedFlow (seen (sniffStep cfg w i) !! k) = e0) as He.
      { unfold e0. by rewrite (sniffStep_entry cfg w i k Hk), decide_False. }
      destruct (IH (sniffStep cfg w i) (sniffStep_wf cfg w i Hwf) Hnr) as (n & Hn & Hbound).
      { by rewrite He. }
      { by rewrite He. }
      rewrite He in Hbound. by exists n.
Qed.

(** X1: over a run from the start of the worker in which no sweep
    deletes the entry of [k], the frames of [k] sent to the writer are
    a prefix of the frames of [k], however the frames of other flows
    are interleaved; a prefix that is not empty has fewer frames than
    the packet cutoff and less payload than the byte cutoff. The
    counters of the entry are taken not to wrap around 2^64. *)
Theorem head_prefix cfg t0 k inputs :
  notRemoved cfg k (newWorker t0) inputs →
  Z.of_nat (length (ofFlow k inputs)) < 2 ^ 64 →
  totalPayload (ofFlow k inputs) < 2 ^ 64 →
  ∃ n : nat,
    ofFlow k (forwarded cfg (newWorker t0) inputs) = take n (ofFlow k inputs) ∧
    (n ≠ 0%nat →
       Z.of_nat n < flowPacketCutoff cfg ∧
       totalPayload (take n (ofFlow k inputs)) < flowByteCutoff cfg).
Proof.
  intros Hnr Hp Hb.
  destruct (head_prefix_from cfg k inputs (newWorker t0)) as (n & Hn & Hbound);
    [apply map_Forall_empty | done | done | done |].
  exists n. split; [done|]. intros Hne. destruct (Hbound Hne) as [? ?].
  cbn [seen newWorker] in *. rewrite lookup_empty in *.
  cbn [default from_option id zeroTrackedFlow packets bytecount] in *. lia.
Qed.

(** X1 on five frames of 2000 bytes between two ARP frames. *)
Lemma head_prefix_witness :
  let cfg := defaultConfig in
  let inputs := arpFrame 0 :: tcpFrames 5 2000 ++ [arpFrame 9000] in
  ∃ n : nat,
    ofFlow sampleKey (forwarded cfg (newWorker 0) inputs) =
      take n (ofFlow sampleKey inputs) ∧
    (n ≠ 0%nat →
       Z.of_nat n < flowPacketCutoff cfg ∧
       totalPayload (take n (ofFlow sampleKey inputs)) < flowByteCutoff cfg).
Proof.
  intros cfg inputs.
  apply (head_prefix cfg 0 sampleKey inputs).
  - apply short_run_notRemoved; vm_compute; [discriminate | reflexivity].
  - vm_compute. reflexivity.
  - vm_compute. reflexivity.
Defined.

(** ** The order of the queue *)

(** X2: the frames a run puts on the channel are frames of the run,
    each with its capture information and its bytes unchanged, in the
    order in which they were read and none twice. *)
Theorem queue_order cfg w inputs :
  writerchan (sniffFrom cfg w inputs) =
    writerchan w ++ (frameOf <$> forwarded cfg w inputs) ∧
  sublist (forwarded cfg w inputs) inputs.
Proof.
  split; [apply writerchan_run|].
  revert w. induction inputs as [|i inputs IH]; intros w; [constructor|].
  cbn [forwarded]. destruct (accepted cfg i w); cbn [app].
  - by apply sublist_skip.
  - by apply sublist_cons.
Qed.

(** ** What an entry says of its flow *)

Lemma entry_last_from cfg k inputs w t :
  (∀ e, seen w !! k = Some e → last e = t) →
  ∀ e', seen (sniffFrom cfg w inputs) !! k = Some e' → last e' = lastSeen k inputs t.
Proof.
  revert w t. induction inputs as [|i inputs IH]; intros w t Ht e' He'.
  - by apply Ht.
  - rewrite sniffFrom_cons in He'. unfold lastSeen. cbn [fold_left].
    apply (IH (sniffStep cfg w i)); [|done].
    intros e He. apply sniffStep_lookup_Some in He.
    destruct (decide (flowOf i = k)) as [Hf|Hf].
    + subst k. rewrite track_lookup in He. injection He as <-.
      by destruct (marked_fields cfg i w (updated i w)) as (_ & _ & ->).
    + rewrite track_lookup_ne in He by done. by apply Ht.
Qed.

Lemma entry_bounds_from cfg k inputs w P B :
  wfTable (seen w) →
  (∀ e, seen w !! k = Some e → packets e <= P ∧ bytecount e <= B) →
  0 <= P → 0 <= B →
  P + Z.of_nat (length (ofFlow k inputs)) < 2 ^ 64 →
  B + totalPayload (ofFlow k inputs) < 2 ^ 64 →
  ∀ e', seen (sniffFrom cfg w inputs) !! k = Some e' →
        packets e' <= P + Z.of_nat (length (ofFlow k inputs)) ∧
        bytecount e' <= B + totalPayload (ofFlow k inputs).
Proof.
  revert w P B. induction inputs as [|i inputs IH]; intros w P B Hwf Hin HP HB HPn HBn e' He'.
  - destruct (Hin e' He').
    change (ofFlow k []) with (@nil Input). cbn [length totalPayload foldr]. lia.
  - rewrite sniffFrom_cons in He'.
    pose proof (totalPayload_nonneg (ofFlow k inputs)) as Hnn.
    destruct (decide (flowOf i = k)) as [Hf|Hf].
    + rewrite ofFlow_cons_eq in HPn, HBn |- * by done.
      rewrite length_cons in HPn |- *. rewrite totalPayload_cons in HBn |- *.
      pose proof (payload_nonneg i) as Hpay.
      destruct (IH (sniffStep cfg w i) (P + 1) (B + payload i)
                  (sniffStep_wf cfg w i Hwf)) with (e' := e') as [? ?];
        [|lia|lia|lia|lia|done|lia].
      intros e He. apply sniffStep_lookup_Some in He.
      subst k. rewrite track_lookup in He. injection He as <-.
      destruct (marked_fields cfg i w (updated i w)) as (-> & -> & _).
      destruct (updated_counters i w Hwf) as (-> & -> & _).
      pose proof (wf_default (seen w) (flowOf i) Hwf) as [Hp0 Hb0].
      assert (packets (default zeroTrackedFlow (seen w !! flowOf i)) <= P ∧
              bytecount (default zeroTrackedFlow (seen w !! flowOf i)) <= B) as [? ?].
      { destruct (seen w !! flowOf i) as [e0|] eqn:E; [by apply Hin|].
        cbn [default from_option id zeroTrackedFlow packets bytecount]. lia. }
      rewrite !wrap_small by lia. lia.
    + rewrite ofFlow_cons_ne in HPn, HBn |- * by done.
      apply (IH (sniffStep cfg w i) P B (sniffStep_wf cfg w i Hwf)); try done.
      intros e He. apply sniffStep_lookup_Some in He.
      rewrite track_lookup_ne in He by done. by apply Hin.
Qed.

(** X3: whatever the sweeps have done, an entry that is in the table
    after a run from the start of the worker is the entry of a flow
    that has sent a frame, its [last] is the time of the latest frame
    of that flow, and it has counted no more packets and no more bytes
    than the flow has sent (the totals taken to fit 64 bits). *)
Theorem entry_reflects_flow cfg t0 inputs k flw :
  seen (doSniff cfg t0 inputs) !! k = Some flw →
  ofFlow k inputs ≠ [] ∧
  last flw = lastSeen k inputs 0 ∧
  (Z.of_nat (length (ofFlow k inputs)) < 2 ^ 64 →
   totalPayload (ofFlow k inputs) < 2 ^ 64 →
   packets flw <= Z.of_nat (length (ofFlow k inputs)) ∧
   bytecount flw <= totalPayload (ofFlow k inputs)).
Proof.
  intros Hflw. split_and!.
  - intros Hnil. unfold doSniff in Hflw.
    rewrite (run_absent cfg k inputs (newWorker t0)) in Hflw; [done| |done].
    apply lookup_empty.
  - apply (entry_last_from cfg k inputs (newWorker t0) 0); [|done].
    intros e He. cbn [seen newWorker] in He. by rewrite lookup_empty in He.
  - intros Hp Hb.
    apply (entry_bounds_from cfg k inputs (newWorker t0) 0 0); done.
Qed.

(** X3 on the 10 frames of 2000 bytes. *)
Lemma entry_reflects_flow_witness :
  let inputs := tcpFrames 10 2000 in
  let flw := {| packets := 10; bytecount := 19420; last := 10000; logged := false |} in
  ofFlow sampleKey inputs ≠ [] ∧
  last flw = lastSeen sampleKey inputs 0 ∧
  (Z.of_nat (length (ofFlow sampleKey inputs)) < 2 ^ 64 →
   totalPayload (ofFlow sampleKey inputs) < 2 ^ 64 →
   packets flw <= Z.of_nat (length (ofFlow sampleKey inputs)) ∧
   bytecount flw <= totalPayload (ofFlow sampleKey inputs)).
Proof.
  intros inputs flw.
  apply (entry_reflects_flow defaultConfig 0 inputs sampleKey flw).
  vm_compute. reflexivity.
Defined.

(** ** The traffic counters *)

Lemma totalLen_app l1 l2 : totalLen (l1 ++ l2) = totalLen l1 + totalLen l2.
Proof. induction l1 as [|i l1 IH]; simpl; lia. Qed.

Lemma bytesInv_step cfg w i read sent :
  frameLen i <= MAX_ETHERNET_MTU →
  bytesInv w read sent →
  bytesInv (sniffStep cfg w i) (read + frameLen i)
    (sent + if accepted cfg i w then frameLen i else 0).
Proof.
  intros Hlen (Hs & Hob & Htb & Hmb & Hread & Hsent & Hop & Htp & Hmo).
  pose proof (frameLen_range i) as Hfl.
  unfold MAX_ETHERNET_MTU in *.
  assert (wrapInt (speedup w + 1) = speedup w + 1) as Hwi.
  { unfold wrapInt. rewrite Z.mod_small; lia. }
  assert (wrap (totalBytes w + frameLen i) = totalBytes w + frameLen i) as Hwt
    by (apply wrap_small; lia).
  assert (wrap (outputBytes w + frameLen i) = outputBytes w + frameLen i) as Hwo
    by (apply wrap_small; lia).
  assert (wrap (totalPackets w + 1) = totalPackets w + 1) as Hwp
    by (apply wrap_small; lia).
  assert (wrap (outputPackets w + 1) = outputPackets w + 1) as Hwq
    by (apply wrap_small; lia).
  unfold bytesInv, sniffStep, housekeeping, MAX_ETHERNET_MTU.
  cbn [speedup track]. rewrite Hwi.
  destruct (Z.eqb_spec (speedup w + 1) 5000) as [He|Hne].
  - destruct (cleanupDue _ _ _); cbn; rewrite Hwt, Hwp;
      destruct (accepted cfg i w); rewrite ?Hwo, ?Hwq; lia.
  - cbn. rewrite Hwt, Hwp.
    destruct (accepted cfg i w); rewrite ?Hwo, ?Hwq; lia.
Qed.

Lemma bytesInv_run cfg w inputs read sent :
  Forall (λ i, frameLen i <= MAX_ETHERNET_MTU) inputs →
  bytesInv w read sent →
  bytesInv (sniffFrom cfg w inputs) (read + totalLen inputs)
    (sent + totalLen (forwarded cfg w inputs)).
Proof.
  intros Hall. revert w read sent.
  induction Hall as [|i inputs Hi _ IH]; intros w read sent Hinv.
  - simpl. by rewrite !Z.add_0_r.
  - rewrite sniffFrom_cons. cbn [forwarded]. rewrite totalLen_app.
    apply (bytesInv_step cfg w i) in Hinv; [|done].
    apply IH in Hinv.
    replace (read + totalLen (i :: inputs)) with (read + frameLen i + totalLen inputs)
      by (simpl; lia).
    replace (sent + (totalLen (if accepted cfg i w then [i] else []) +
               totalLen (forwarded cfg (sniffStep cfg w i) inputs)))
      with (sent + (if accepted cfg i w then frameLen i else 0) +
              totalLen (forwarded cfg (sniffStep cfg w i) inputs)); [done|].
    destruct (accepted cfg i w); simpl; lia.
Qed.

(** X4: for a run from the start of the worker, with no frame longer
    than the snap length the handle is opened with, the packet and byte
    totals (what has been flushed to the registry plus the local
    counters) are the number and the bytes of the frames read, the
    output totals are the number and the bytes of the frames sent to
    the writer, and the output counters never exceed the totals, in the
    registry as in the worker. *)
Theorem traffic_accounting cfg t0 inputs :
  Forall (λ i, frameLen i <= MAX_ETHERNET_MTU) inputs →
  let W := doSniff cfg t0 inputs in
  let sent := forwarded cfg (newWorker t0) inputs in
  mPackets (metrics W) + totalPackets W = Z.of_nat (length inputs) ∧
  mOutput (metrics W) + outputPackets W = Z.of_nat (length sent) ∧
  mBytes (metrics W) + totalBytes W = totalLen inputs ∧
  mBytesOutput (metrics W) + outputBytes W = totalLen sent ∧
  0 <= mOutput (metrics W) <= mPackets (metrics W) ∧
  0 <= mBytesOutput (metrics W) <= mBytes (metrics W) ∧
  0 <= outputPackets W <= totalPackets W ∧
  0 <= outputBytes W <= totalBytes W.
Proof.
  intros Hall W sent.
  pose proof (countsInv_run cfg (newWorker t0) inputs 0 (countsInv_new t0))
    as (_ & _ & _ & Hp & _ & Hout).
  assert (bytesInv (newWorker t0) 0 0) as Hb0.
  { unfold bytesInv, MAX_ETHERNET_MTU; simpl. lia. }
  pose proof (bytesInv_run cfg (newWorker t0) inputs 0 0 Hall Hb0)
    as (_ & Hob & _ & Hmb & Hread & Hsent & Hop & _ & Hmo).
  fold (doSniff cfg t0 inputs) in *. fold W in Hp, Hout, Hob, Hmb, Hread, Hsent, Hop, Hmo.
  fold sent in Hsent.
  assert (Z.of_nat (length (writerchan W)) = Z.of_nat (length sent)) as Hlen.
  { unfold W, doSniff. rewrite writerchan_run. cbn [writerchan newWorker app].
    by rewrite length_fmap. }
  split_and!; lia.
Qed.

(** X4 on the 200 frames of 100 bytes with the default cutoffs. *)
Lemma traffic_accounting_witness :
  let cfg := defaultConfig in
  let inputs := tcpFrames 200 100 in
  let W := doSniff cfg 0 inputs in
  let sent := forwarded cfg (newWorker 0) inputs in
  mPackets (metrics W) + totalPackets W = Z.of_nat (length inputs) ∧
  mOutput (metrics W) + outputPackets W = Z.of_nat (length sent) ∧
  mBytes (metrics W) + totalBytes W = totalLen inputs ∧
  mBytesOutput (metrics W) + outputBytes W = totalLen sent ∧
  0 <= mOutput (metrics W) <= mPackets (metrics W) ∧
  0 <= mBytesOutput (metrics W) <= mBytes (metrics W) ∧
  0 <= outputPackets W <= totalPackets W ∧
  0 <= outputBytes W <= totalBytes W.
Proof.
  intros cfg inputs.
  apply (traffic_accounting cfg 0 inputs).
  apply Forall_fmap, Forall_forall. intros j _. vm_compute. discriminate.
Defined.

(** ** The flow counters *)

Lemma size_deleteAll remove (table : gmap FiveTuple trackedFlow) :
  NoDup remove →
  Forall (λ k, is_Some (table !! k)) remove →
  (size (deleteAll remove table) + length remove)%nat = size table.
Proof.
  unfold deleteAll. revert table.
  induction remove as [|r remove IH]; intros table Hnd Hall; cbn [fold_left length].
  - lia.
  - apply NoDup_cons in Hnd as [Hr Hnd]. apply Forall_cons in Hall as [[x Hx] Hall].
    assert (size table = S (size (delete r table))) as Hsize.
    { rewrite <- (insert_id table r x Hx) at 1. rewrite <- insert_delete_eq.
      apply map_size_insert_None, lookup_delete_eq. }
    assert (Forall (λ k, is_Some (delete r table !! k)) remove) as Hall'.
    { apply Forall_forall. intros k Hk. rewrite Forall_forall in Hall.
      rewrite lookup_delete_ne; [by apply Hall|]. by intros ->. }
    specialize (IH (delete r table) Hnd Hall'). lia.
Qed.

Lemma sweep_sizes cfg w i :
  let remove := (expiredFlows cfg (in_cleanup i) (seen w)).*1 in
  Z.of_nat (size (seen (sweep cfg w i))) + Z.of_nat (length remove) =
    Z.of_nat (size (seen w)).
Proof.
  cbn zeta. cbn [seen sweep].
  rewrite <- Nat2Z.inj_add. f_equal. apply size_deleteAll.
  - apply NoDup_expired_keys.
  - apply Forall_forall. intros k (flw & Hk & _)%elem_of_expired_keys. by eexists.
Qed.

Lemma track_flows cfg w i :
  0 <= totalFlows w < 2 ^ 64 - 1 →
  ∃ fresh : Z,
    0 <= fresh <= 1 ∧
    totalFlows (track cfg w i) = totalFlows w + fresh ∧
    Z.of_nat (size (seen (track cfg w i))) = Z.of_nat (size (seen w)) + fresh.
Proof.
  intros Htf. cbn [totalFlows seen track]. rewrite map_size_insert.
  destruct (seen w !! flowOf i).
  - exists 0. cbn [id]. lia.
  - exists 1. rewrite wrap_small by lia. lia.
Qed.

Lemma flowsInv_step cfg w i n :
  n + 1 < 2 ^ 64 →
  flowsInv w n → flowsInv (sniffStep cfg w i) (n + 1).
Proof.
  intros Hn (Hs & Htf & Hmf & Hrf & Heq & Hle & Hobs).
  destruct (track_flows cfg w i) as (fresh & Hfresh & Htf1 & Hsize1); [lia|].
  assert (wrapInt (speedup w + 1) = speedup w + 1) as Hwi.
  { unfold wrapInt. rewrite Z.mod_small; lia. }
  unfold flowsInv, sniffStep, housekeeping. cbn [speedup track]. rewrite Hwi.
  destruct (Z.eqb_spec (speedup w + 1) 5000) as [He|Hne].
  - destruct (cleanupDue _ _ _).
    + pose proof (sweep_sizes cfg (setSpeedup 0 (track cfg w i)) i) as Hsw.
      cbn zeta in Hsw.
      cbn [seen setSpeedup] in Hsw.
      cbn [flush sweep setSpeedup seen speedup totalFlows removedFlows metrics
           mFlows mFlowSize].
      cbn [seen sweep setSpeedup] in Hsw.
      set (remove := (expiredFlows cfg (in_cleanup i) (seen (track cfg w i))).*1) in *.
      rewrite length_app, !length_fmap. fold (remove).
      assert (length (expiredFlows cfg (in_cleanup i) (seen (track cfg w i))) =
              length remove) as -> by (unfold remove; by rewrite length_fmap).
      cbn [removedFlows metrics track]. rewrite wrap_small by lia.
      rewrite Nat2Z.inj_add. lia.
    + cbn [flush setSpeedup seen speedup totalFlows removedFlows metrics
           mFlows mFlowSize].
      cbn [removedFlows metrics track]. lia.
  - cbn [setSpeedup seen speedup totalFlows removedFlows metrics mFlows mFlowSize].
    cbn [removedFlows metrics track]. lia.
Qed.

Lemma flowsInv_run cfg w inputs n :
  n + Z.of_nat (length inputs) < 2 ^ 64 →
  flowsInv w n → flowsInv (sniffFrom cfg w inputs) (n + Z.of_nat (length inputs)).
Proof.
  revert w n. induction inputs as [|i inputs IH]; intros w n Hn Hinv.
  - simpl. by rewrite Z.add_0_r.
  - rewrite length_cons in Hn. rewrite sniffFrom_cons.
    replace (n + Z.of_nat (length (i :: inputs))) with (n + 1 + Z.of_nat (length inputs))
      by (rewrite length_cons; lia).
    apply IH; [lia|]. apply flowsInv_step; [lia|done].
Qed.

(** X5: for a run of fewer than 2^64 frames from the start of the
    worker, the flows counted as new (flushed to the registry or still
    in the local counter) are the entries in the table plus the entries
    the sweeps have removed; the histogram has one observation for each
    removed entry; and no more flows are counted than frames read. *)
Theorem flow_accounting cfg t0 inputs :
  Z.of_nat (length inputs) < 2 ^ 64 →
  let W := doSniff cfg t0 inputs in
  mFlows (metrics W) + totalFlows W = Z.of_nat (size (seen W)) + removedFlows W ∧
  Z.of_nat (length (mFlowSize (metrics W))) = removedFlows W ∧
  mFlows (metrics W) + totalFlows W <= Z.of_nat (length inputs).
Proof.
  intros Hlen W.
  assert (flowsInv (newWorker t0) 0) as H0.
  { unfold flowsInv; simpl. rewrite map_size_empty. lia. }
  pose proof (flowsInv_run cfg (newWorker t0) inputs 0 ltac:(lia) H0)
    as (_ & _ & _ & _ & Heq & Hle & Hobs).
  fold (doSniff cfg t0 inputs) in *. fold W in Heq, Hle, Hobs.
  split_and!; [done|done|lia].
Qed.

(** X5 on two ARP frames and five TCP frames: two flows. *)
Lemma flow_accounting_witness :
  let inputs := arpFrame 0 :: tcpFrames 5 2000 ++ [arpFrame 9000] in
  let W := doSniff defaultConfig 0 inputs in
  mFlows (metrics W) + totalFlows W = Z.of_nat (size (seen W)) + removedFlows W ∧
  Z.of_nat (length (mFlowSize (metrics W))) = removedFlows W ∧
  mFlows (metrics W) + totalFlows W <= Z.of_nat (length inputs).
Proof.
  intros inputs.
  apply (flow_accounting defaultConfig 0 inputs).
  vm_compute. reflexivity.
Defined.

(** ** Housekeeping *)

Lemma sniffStep_short cfg w i :
  0 <= speedup w → speedup w + 1 < 5000 →
  sniffStep cfg w i = setSpeedup (speedup w + 1) (track cfg w i).
Proof.
  intros H0 H1.
  assert (wrapInt (speedup w + 1) = speedup w + 1) as Hwi.
  { unfold wrapInt. rewrite Z.mod_small; lia. }
  unfold sniffStep, housekeeping. cbn [speedup track]. rewrite Hwi.
  destruct (Z.eqb_spec (speedup w + 1) 5000); [lia|done].
Qed.

Lemma short_run_from cfg w inputs :
  0 <= speedup w → speedup w + Z.of_nat (length inputs) < 5000 →
  let W := sniffFrom cfg w inputs in
  metrics W = metrics w ∧
  lastcleanup W = lastcleanup w ∧
  removedFlows W = removedFlows w ∧
  dom (seen W) = dom (seen w) ∪ list_to_set (flowOf <$> inputs).
Proof.
  revert w. induction inputs as [|i inputs IH]; intros w H0 H1; cbn zeta.
  - cbn [sniffFrom fold_left fmap list_fmap list_to_set foldr].
    split_and!; try done. by rewrite union_empty_r_L.
  - rewrite length_cons in H1. rewrite sniffFrom_cons.
    rewrite (sniffStep_short cfg w i) by lia.
    destruct (IH (setSpeedup (speedup w + 1) (track cfg w i))) as (-> & -> & -> & ->).
    { cbn [speedup setSpeedup]. lia. }
    { cbn [speedup setSpeedup]. lia. }
    cbn [metrics lastcleanup removedFlows seen setSpeedup track].
    split_and!; try done.
    rewrite dom_insert_L, fmap_cons, list_to_set_cons.
    rewrite (comm_L (∪) {[flowOf i]} (dom (seen w))). by rewrite <- (assoc_L (∪)).
Qed.

(** X6: a worker that has read fewer than 5000 frames has done no
    housekeeping, however much time has passed: nothing has reached the
    metrics registry, no sweep has run and no entry has been removed,
    so the table holds an entry for every five-tuple seen. *)
Theorem short_run_keeps_everything cfg t0 inputs :
  Z.of_nat (length inputs) < 5000 →
  let W := doSniff cfg t0 inputs in
  metrics W = zeroMetrics ∧
  lastcleanup W = t0 ∧
  removedFlows W = 0 ∧
  dom (seen W) = list_to_set (flowOf <$> inputs).
Proof.
  intros Hlen W.
  destruct (short_run_from cfg (newWorker t0) inputs) as (Hm & Hl & Hr & Hd);
    [done | cbn [speedup newWorker]; lia |].
  fold (doSniff cfg t0 inputs) in *. fold W in Hm, Hl, Hr, Hd.
  split_and!; try done.
  rewrite Hd. cbn [seen newWorker]. by rewrite dom_empty_L, union_empty_l_L.
Qed.

(** X6 on frames spread over an hour. *)
Lemma short_run_keeps_everything_witness :
  let inputs := [tcpFrame 0 100; arpFrame (3600 * 10 ^ 9)] in
  let W := doSniff defaultConfig 0 inputs in
  metrics W = zeroMetrics ∧
  lastcleanup W = 0 ∧
  removedFlows W = 0 ∧
  dom (seen W) = list_to_set (flowOf <$> inputs).
Proof.
  intros inputs.
  apply (short_run_keeps_everything defaultConfig 0 inputs).
  vm_compute. reflexivity.
Defined.

Lemma speedup_step cfg w i :
  0 <= speedup w < 5000 →
  speedup (sniffStep cfg w i) = (speedup w + 1) mod 5000.
Proof.
  intros Hs.
  assert (wrapInt (speedup w + 1) = speedup w + 1) as Hwi.
  { unfold wrapInt. rewrite Z.mod_small; lia. }
  unfold sniffStep, housekeeping. cbn [speedup track]. rewrite Hwi.
  destruct (Z.eqb_spec (speedup w + 1) 5000) as [He|Hne].
  - rewrite He, Z.mod_same by lia. by destruct (cleanupDue _ _ _).
  - cbn [speedup setSpeedup]. rewrite Z.mod_small; lia.
Qed.

Lemma speedup_run cfg w inputs :
  0 <= speedup w < 5000 →
  speedup (sniffFrom cfg w inputs) = (speedup w + Z.of_nat (length inputs)) mod 5000.
Proof.
  revert w. induction inputs as [|i inputs IH]; intros w Hs.
  - simpl. rewrite Z.add_0_r, Z.mod_small; lia.
  - rewrite sniffFrom_cons, IH.
    + rewrite speedup_step by done.
      rewrite length_cons, Zplus_mod_idemp_l. f_equal. lia.
    + rewrite speedup_step by done. apply Z.mod_pos_bound. lia.
Qed.

(** X7: from the start of the worker the housekeeping runs on every
    5000th frame and on no other. An iteration removes entries only if
    it reads a 5000th frame; and after a 5000th frame the local
    counters are back to zero, every frame read is in the packet count
    of the registry, and the gauge of active flows is the size of the
    table. *)
Theorem housekeeping_cadence cfg t0 inputs i :
  let W := doSniff cfg t0 inputs in
  let W' := sniffStep cfg W i in
  speedup W = Z.of_nat (length inputs) mod 5000 ∧
  (removedBy cfg W i ≠ [] → (Z.of_nat (length inputs) + 1) mod 5000 = 0) ∧
  ((Z.of_nat (length inputs) + 1) mod 5000 = 0 →
     totalPackets W' = 0 ∧ totalBytes W' = 0 ∧ totalFlows W' = 0 ∧
     outputPackets W' = 0 ∧ outputBytes W' = 0 ∧
     mPackets (metrics W') = Z.of_nat (length inputs) + 1 ∧
     mActiveFlows (metrics W') = Z.of_nat (size (seen W'))).
Proof.
  intros W W'.
  assert (speedup W = Z.of_nat (length inputs) mod 5000) as Hsp.
  { unfold W, doSniff. rewrite speedup_run; cbn [speedup newWorker]; [done|lia]. }
  assert (0 <= speedup W < 5000) as Hrange.
  { rewrite Hsp. apply Z.mod_pos_bound. lia. }
  assert (wrapInt (speedup W + 1) = speedup W + 1) as Hwi.
  { unfold wrapInt. rewrite Z.mod_small; lia. }
  assert ((Z.of_nat (length inputs) + 1) mod 5000 = (speedup W + 1) mod 5000) as Hmod.
  { rewrite Hsp. by rewrite Zplus_mod_idemp_l. }
  split_and!; [done| |].
  - unfold removedBy, sweepRuns. rewrite Hwi.
    destruct (Z.eqb_spec (speedup W + 1) 5000) as [He|Hne]; [|done].
    intros _. rewrite Hmod, He. apply Z.mod_same. lia.
  - intros Hzero. rewrite Hmod in Hzero.
    assert (speedup W + 1 = 5000) as He.
    { destruct (Z.eq_dec (speedup W + 1) 5000) as [|Hne]; [done|].
      rewrite Z.mod_small in Hzero by lia. lia. }
    pose proof (countsInv_run cfg (newWorker t0) (inputs ++ [i]) 0 (countsInv_new t0))
      as (_ & _ & _ & Hp & _ & _).
    rewrite sniffFrom_snoc in Hp. fold (doSniff cfg t0 inputs) in Hp.
    fold W in Hp. fold W' in Hp. rewrite length_app in Hp. cbn [length] in Hp.
    assert (totalPackets W' = 0 ∧ totalBytes W' = 0 ∧ totalFlows W' = 0 ∧
            outputPackets W' = 0 ∧ outputBytes W' = 0 ∧
            mActiveFlows (metrics W') = Z.of_nat (size (seen W'))) as (Htp & ? & ? & ? & ? & ?).
    { unfold W', sniffStep, housekeeping. cbn [speedup track]. rewrite Hwi.
      rewrite (proj2 (Z.eqb_eq _ _) He). by destruct (cleanupDue _ _ _). }
    split_and!; try done. lia.
Qed.

(** X7 on 4999 frames of one flow within 5 ms, then a frame 10 s
    later: that frame is the 5000th. *)
Lemma housekeeping_cadence_witness :
  let inputs := tcpFrames 4999 100 in
  let i := arpFrame (10 * 10 ^ 9) in
  let W' := sniffStep defaultConfig (doSniff defaultConfig 0 inputs) i in
  totalPackets W' = 0 ∧ totalBytes W' = 0 ∧ totalFlows W' = 0 ∧
  outputPackets W' = 0 ∧ outputBytes W' = 0 ∧
  mPackets (metrics W') = Z.of_nat (length inputs) + 1 ∧
  mActiveFlows (metrics W') = Z.of_nat (size (seen W')).
Proof.
  intros inputs i.
  apply (proj2 (proj2 (housekeeping_cadence defaultConfig 0 inputs i))).
  vm_compute. reflexivity.
Defined.

(** ** The key of a frame *)

Lemma decodeFlow_no_transport L decoded acc :
  LayerTypeTCP ∉ decoded → LayerTypeUDP ∉ decoded →
  transportFlow (fold_left (setLayer L) decoded acc) = transportFlow acc.
Proof.
  revert acc. induction decoded as [|t decoded IH]; intros acc Ht Hu; [done|].
  apply not_elem_of_cons in Ht as [? Ht]. apply not_elem_of_cons in Hu as [? Hu].
  cbn [fold_left]. rewrite (IH (setLayer L acc t) Ht Hu). by destruct t.
Qed.

(** X8: the protocol and the network flow of the key are those of the
    last IP layer decoded, whatever comes before it (VLAN tags, an
    outer IP header), and the transport flow is that of the last TCP or
    UDP layer decoded; with no TCP or UDP layer the transport flow is
    the zero value, so all such traffic between two hosts is one flow
    for each protocol number. *)
Theorem key_from_last_layers L decoded :
  (∀ pre t post,
     decoded = pre ++ t :: post →
     LayerTypeIPv4 ∉ post → LayerTypeIPv6 ∉ post →
     (t = LayerTypeIPv4 →
        proto (decodeFlow L decoded) = ip4_Protocol L ∧
        networkFlow (decodeFlow L decoded) = ip4_NetworkFlow L) ∧
     (t = LayerTypeIPv6 →
        proto (decodeFlow L decoded) = ip6_NextHeader L ∧
        networkFlow (decodeFlow L decoded) = ip6_NetworkFlow L)) ∧
  (∀ pre t post,
     decoded = pre ++ t :: post →
     LayerTypeTCP ∉ post → LayerTypeUDP ∉ post →
     (t = LayerTypeTCP → transportFlow (decodeFlow L decoded) = tcp_TransportFlow L) ∧
     (t = LayerTypeUDP → transportFlow (decodeFlow L decoded) = udp_TransportFlow L)) ∧
  (LayerTypeTCP ∉ decoded → LayerTypeUDP ∉ decoded →
     transportFlow (decodeFlow L decoded) = zeroFlow).
Proof.
  split_and!.
  - intros pre t post -> H4 H6. unfold decodeFlow.
    rewrite fold_left_app. cbn [fold_left].
    split; intros ->.
    + by destruct (decodeFlow_no_ip L post
                     (setLayer L (fold_left (setLayer L) pre zeroFiveTuple) LayerTypeIPv4)
                     H4 H6) as [-> ->].
    + by destruct (decodeFlow_no_ip L post
                     (setLayer L (fold_left (setLayer L) pre zeroFiveTuple) LayerTypeIPv6)
                     H4 H6) as [-> ->].
  - intros pre t post -> Ht Hu. unfold decodeFlow.
    rewrite fold_left_app. cbn [fold_left].
    split; intros ->; by rewrite decodeFlow_no_transport.
  - intros Ht Hu. unfold decodeFlow. by rewrite decodeFlow_no_transport.
Qed.

(** X8 on a VLAN-tagged TCP frame over IPv4. *)
Lemma key_from_last_layers_witness :
  let decoded := [LayerTypeEthernet; LayerTypeDot1Q; LayerTypeIPv4; LayerTypeTCP] in
  proto (decodeFlow sampleLayers decoded) = ip4_Protocol sampleLayers ∧
  networkFlow (decodeFlow sampleLayers decoded) = ip4_NetworkFlow sampleLayers.
Proof.
  intros decoded.
  apply (proj1 (key_from_last_layers sampleLayers decoded)
           [LayerTypeEthernet; LayerTypeDot1Q] LayerTypeIPv4 [LayerTypeTCP]).
  - reflexivity.
  - by intros [?|?%elem_of_nil]%elem_of_cons.
  - by intros [?|?%elem_of_nil]%elem_of_cons.
  - reflexivity.
Defined.

(** ** A flow that comes back after its entry has expired *)

(** X9: when a sweep finds the entry of a flow older than the
    timeout, the next frame of the flow (no longer than the snap
    length) meets no entry: it starts a new one with a count of one
    packet, its own bytes and a clear flag, whatever the old entry had
    reached, it is counted as a new flow, and it is sent to the writer
    exactly when its own bytes are below the byte cutoff and the packet
    cutoff is above 1. *)
Theorem resampled_after_expiry cfg w j i flw :
  seen w !! flowOf i = Some flw →
  flowTimeout cfg < time_Sub (in_cleanup j) (last flw) →
  frameLen i <= MAX_ETHERNET_MTU →
  let w1 := sweep cfg w j in
  let w2 := track cfg w1 i in
  seen w1 !! flowOf i = None ∧
  seen w2 !! flowOf i =
    Some {| packets := 1; bytecount := payload i; last := in_now i; logged := false |} ∧
  totalFlows w2 = wrap (totalFlows w + 1) ∧
  accepted cfg i w1 = (payload i <? flowByteCutoff cfg) && (1 <? flowPacketCutoff cfg).
Proof.
  intros Hflw Hexp Hmtu w1 w2.
  assert (seen w1 !! flowOf i = None) as Hnone.
  { unfold w1. rewrite sweep_lookup, Hflw. by rewrite decide_True. }
  assert (updated i w1 =
          {| packets := 1; bytecount := payload i; last := in_now i; logged := false |})
    as Hup.
  { unfold updated. rewrite Hnone. cbn [default from_option id].
    unfold touch. cbn [packets bytecount logged zeroTrackedFlow].
    pose proof (frameLen_range i) as Hfl. unfold payload, MINIMUM_IP_PACKET_SIZE.
    f_equal. destruct (Z.ltb_spec 58 (frameLen i)).
    - rewrite Z.add_0_l, wrap_small; lia.
    - lia. }
  assert (accepted cfg i w1 =
          (payload i <? flowByteCutoff cfg) && (1 <? flowPacketCutoff cfg)) as Hacc.
  { unfold accepted, underCutoff. by rewrite Hup. }
  split_and!; [done| |by (unfold w2; cbn [totalFlows track]; rewrite Hnone)|done].
  unfold w2. rewrite track_lookup, Hup.
  assert (logsLarge cfg i w1 = false) as ->; [|done].
  unfold logsLarge, largeUnlogged. rewrite Hup. cbn [bytecount logged].
  pose proof (payload_range i). apply andb_false_iff. right.
  apply andb_false_iff. right. apply Z.ltb_ge. unfold LARGE_FLOW_SIZE.
  pose proof (frameLen_range i).
  unfold payload, MINIMUM_IP_PACKET_SIZE, MAX_ETHERNET_MTU in *. lia.
Qed.

(** X9 on the flow cut off by five frames of 2000 bytes, swept at 6 s
    and seen again at 7 s. *)
Lemma resampled_after_expiry_witness :
  let cfg := defaultConfig in
  let w := doSniff cfg 0 (tcpFrames 5 2000) in
  let j := tcpFrame (6 * 10 ^ 9) 100 in
  let i := tcpFrame (7 * 10 ^ 9) 100 in
  let w1 := sweep cfg w j in
  let w2 := track cfg w1 i in
  seen w1 !! flowOf i = None ∧
  seen w2 !! flowOf i =
    Some {| packets := 1; bytecount := payload i; last := in_now i; logged := false |} ∧
  totalFlows w2 = wrap (totalFlows w + 1) ∧
  accepted cfg i w1 = (payload i <? flowByteCutoff cfg) && (1 <? flowPacketCutoff cfg).
Proof.
  intros cfg w j i.
  apply (resampled_after_expiry cfg w j i
           {| packets := 5; bytecount := 9710; last := 5000; logged := false |}).
  - vm_compute. reflexivity.
  - vm_compute. reflexivity.
  - vm_compute. discriminate.
Defined.

(** * Further properties of the file manager *)

Lemma string_app_inj a a' b b' :
  String.length a = String.length a' → a +:+ b = a' +:+ b' → a = a' ∧ b = b'.
Proof.
  revert a'. induction a as [|c a IH]; intros [|c' a'] Hlen Heq; try done.
  cbn [String.append] in Heq. injection Heq as -> Heq.
  cbn [String.length] in Hlen. injection Hlen as Hlen.
  by destruct (IH a' Hlen Heq) as [-> ->].
Qed.

Lemma appendInt_read (width : nat) (bound : Z) x :
  forallb (λ n, readDigits 0 (appendInt (Z.of_nat n) width) =? Z.of_nat n)
    (seq 0 (Z.to_nat bound)) = true →
  0 <= x < bound →
  readDigits 0 (appendInt x width) = x.
Proof.
  intros Hall Hx. rewrite forallb_forall in Hall.
  specialize (Hall (Z.to_nat x)). rewrite Z2Nat.id in Hall by lia.
  apply Z.eqb_eq, Hall, in_seq. lia.
Qed.

Lemma appendInt_2_inj x y :
  0 <= x < 100 → 0 <= y < 100 → appendInt x 2 = appendInt y 2 → x = y.
Proof.
  intros Hx Hy Heq.
  assert (forallb (λ n, readDigits 0 (appendInt (Z.of_nat n) 2) =? Z.of_nat n)
            (seq 0 (Z.to_nat 100)) = true) as Hall by (vm_compute; reflexivity).
  pose proof (appendInt_read 2 100 x Hall Hx) as Rx.
  pose proof (appendInt_read 2 100 y Hall Hy) as Ry.
  congruence.
Qed.

Lemma appendInt_4_inj x y :
  0 <= x < 10000 → 0 <= y < 10000 → appendInt x 4 = appendInt y 4 → x = y.
Proof.
  intros Hx Hy Heq.
  assert (forallb (λ n, readDigits 0 (appendInt (Z.of_nat n) 4) =? Z.of_nat n)
            (seq 0 (Z.to_nat 10000)) = true) as Hall by (vm_compute; reflexivity).
  pose proof (appendInt_read 4 10000 x Hall Hx) as Rx.
  pose proof (appendInt_read 4 10000 y Hall Hy) as Ry.
  congruence.
Qed.

(** X10: the stamp [renamePcap] puts in the new name has 35 characters
    for every time of the years 0 to 9999, and two such times have the
    same stamp only if they are the same second. *)
Theorem stamp_names_the_second t1 t2 :
  validTime t1 → validTime t2 →
  String.length (formatStamp t1) = 35%nat ∧
  (formatStamp t1 = formatStamp t2 → t1 = t2).
Proof.
  intros (Hy1 & Hm1 & Hd1 & Hh1 & Hn1 & Hs1) (Hy2 & Hm2 & Hd2 & Hh2 & Hn2 & Hs2).
  split; [apply formatStamp_length; lia|].
  unfold formatStamp. intros H.
  apply string_app_inj in H as [Hy H]; [|by rewrite !appendInt_4 by lia].
  apply string_app_inj in H as [_ H]; [|reflexivity].
  apply string_app_inj in H as [Hm H]; [|by rewrite !appendInt_2 by lia].
  apply string_app_inj in H as [_ H]; [|reflexivity].
  apply string_app_inj in H as [Hd H]; [|by rewrite !appendInt_2 by lia].
  apply string_app_inj in H as [_ H]; [|reflexivity].
  apply string_app_inj in H as [_ H]; [|by rewrite !appendInt_4 by lia].
  apply string_app_inj in H as [_ H]; [|reflexivity].
  apply string_app_inj in H as [_ H]; [|by rewrite !appendInt_2 by lia].
  apply string_app_inj in H as [_ H]; [|reflexivity].
  apply string_app_inj in H as [_ H]; [|by rewrite !appendInt_2 by lia].
  apply string_app_inj in H as [_ H]; [|reflexivity].
  apply string_app_inj in H as [Hh H]; [|by rewrite !appendInt_2 by lia].
  apply string_app_inj in H as [_ H]; [|reflexivity].
  apply string_app_inj in H as [Hn H]; [|by rewrite !appendInt_2 by lia].
  apply string_app_inj in H as [_ H]; [|reflexivity].
  apply string_app_inj in H as [Hs _]; [|by rewrite !appendInt_2 by lia].
  apply appendInt_4_inj in Hy; [|lia..].
  apply appendInt_2_inj in Hm; [|lia..].
  apply appendInt_2_inj in Hd; [|lia..].
  apply appendInt_2_inj in Hh; [|lia..].
  apply appendInt_2_inj in Hn; [|lia..].
  apply appendInt_2_inj in Hs; [|lia..].
  destruct t1, t2. cbn [lt_year lt_month lt_day lt_hour lt_minute lt_second] in *.
  by subst.
Qed.

(** X10 on two times one second apart. *)
Lemma stamp_names_the_second_witness :
  let t2 := {| lt_year := 2017; lt_month := 3; lt_day := 9;
               lt_hour := 14; lt_minute := 5; lt_second := 8 |} in
  String.length (formatStamp sampleTime) = 35%nat ∧
  (formatStamp sampleTime = formatStamp t2 → sampleTime = t2).
Proof.
  intros t2.
  apply (stamp_names_the_second sampleTime t2); unfold validTime; cbn; lia.
Defined.

(** * Further properties of the writer *)

Section WriterFacts.
Context {FS error File : Type} `{FileSystem FS error} `{PcapIO FS error File}.
Variable Atoi : string → error + Z.
Variable cfg : Config.
Variable out : string.

Lemma mainLoop_app cur (p : Process FS error File) events more :
  mainLoop cfg cur out p (events ++ more) =
  mainLoop cfg cur out (mainLoop cfg cur out p events) more.
Proof. unfold mainLoop. by rewrite fold_left_app. Qed.

Lemma main_snoc iface count t0 (fs : FS) events ev :
  main Atoi cfg iface out count t0 fs (events ++ [ev]) =
  mainStep cfg (iface +:+ "_current.pcap.tmp") out
    (main Atoi cfg iface out count t0 fs events) ev.
Proof. unfold main. by rewrite mainLoop_app. Qed.

Lemma mainStep_ended cur (p : Process FS error File) ev :
  (∀ wrapper, p_status p ≠ Running wrapper) → mainStep cfg cur out p ev = p.
Proof.
  intros Hp. unfold mainStep. destruct (p_status p) as [wrapper| |]; [|done..].
  by destruct (Hp wrapper).
Qed.

Lemma mainLoop_ended cur (p : Process FS error File) events :
  (∀ wrapper, p_status p ≠ Running wrapper) → mainLoop cfg cur out p events = p.
Proof.
  intros Hp. induction events as [|ev events IH]; [done|].
  unfold mainLoop in *. cbn [fold_left]. by rewrite mainStep_ended.
Qed.

Lemma signal_ends cur (p : Process FS error File) now wrapper :
  p_status (mainStep cfg cur out p (EvSignal now)) ≠ Running wrapper.
Proof.
  unfold mainStep. destruct (p_status p) as [w| |] eqn:Hp; [|by rewrite Hp..].
  destruct (pcapWrapper_Close w (p_fs p)) as [[err|] fs1]; [done|].
  by destruct (renamePcap _ _ _ _ _) as [[[err|] fs2] moved].
Qed.

Lemma mainStart_not_exited iface count t0 (fs : FS) code :
  p_status (mainStart Atoi cfg iface out count t0 fs) ≠ Exited code.
Proof.
  unfold mainStart. destruct (mustAtoiWithDefault _ _ _) as [err|n]; [done|].
  destruct (renamePcap _ _ _ _ _) as [[res fs1] moved].
  by destruct (openPcap _ _ _) as [[[err|wrapper] fs2] opening].
Qed.

Lemma mainStep_exited cur (p : Process FS error File) ev wrapper code :
  p_status p = Running wrapper →
  p_status (mainStep cfg cur out p ev) = Exited code →
  code = 0 ∧ ∃ now, ev = EvSignal now.
Proof.
  intros Hp. unfold mainStep. rewrite Hp. destruct ev as [pcf|now|now].
  - destruct (pcapWrapper_WritePacket _ _ _ _) as [[err|] fs1]; [|done].
    by destruct (pcapWrapper_Close _ _).
  - destruct (pcapWrapper_Close _ _) as [[err|] fs1]; [done|].
    destruct (renamePcap _ _ _ _ _) as [[[err|] fs2] moved]; [done|].
    by destruct (openPcap _ _ _) as [[[err|w] fs3] opening].
  - destruct (pcapWrapper_Close _ _) as [[err|] fs1]; [done|].
    destruct (renamePcap _ _ _ _ _) as [[[err|] fs2] moved]; [done|].
    cbn. intros [= <-]. eauto.
Qed.

(** X11: a signal ends the program, with exit status 0 or by
    [log.Fatal]: whatever the loop would have received after it, frames
    still in the channel among it, is not handled. *)
Theorem signal_ends_program iface count t0 (fs : FS) pre now post :
  main Atoi cfg iface out count t0 fs (pre ++ EvSignal now :: post) =
    main Atoi cfg iface out count t0 fs (pre ++ [EvSignal now]) ∧
  ∀ wrapper,
    p_status (main Atoi cfg iface out count t0 fs (pre ++ EvSignal now :: post))
    ≠ Running wrapper.
Proof.
  assert (main Atoi cfg iface out count t0 fs (pre ++ EvSignal now :: post) =
          main Atoi cfg iface out count t0 fs (pre ++ [EvSignal now])) as Heq.
  { rewrite (cons_middle _ pre post), app_assoc. unfold main at 1.
    rewrite mainLoop_app. apply mainLoop_ended. intros wrapper.
    fold (main Atoi cfg iface out count t0 fs (pre ++ [EvSignal now])).
    rewrite main_snoc. apply signal_ends. }
  split; [done|]. intros wrapper. rewrite Heq, main_snoc. apply signal_ends.
Qed.

(** X12: the program ends with [os.Exit] only with status 0, and only
    on a signal that it has received while it was running. *)
Theorem exit_only_on_signal iface count t0 (fs : FS) events code :
  p_status (main Atoi cfg iface out count t0 fs events) = Exited code →
  code = 0 ∧
  ∃ pre now post wrapper,
    events = pre ++ EvSignal now :: post ∧
    p_status (main Atoi cfg iface out count t0 fs pre) = Running wrapper.
Proof.
  induction events as [|ev events IH] using rev_ind.
  - intros Hex. by destruct (mainStart_not_exited iface count t0 fs code).
  - rewrite main_snoc.
    destruct (p_status (main Atoi cfg iface out count t0 fs events))
      as [wrapper|msg err|c] eqn:Hst.
    + intros Hex. destruct (mainStep_exited _ _ _ _ _ Hst Hex) as [-> [now ->]].
      split; [done|]. by exists events, now, [], wrapper.
    + rewrite mainStep_ended by (intros w; by rewrite Hst). by rewrite Hst.
    + rewrite mainStep_ended by (intros w; by rewrite Hst). rewrite Hst.
      intros [= ->]. destruct IH as [-> (pre & now & post & wrapper & -> & Hrun)]; [done|].
      split; [done|]. exists pre, now, (post ++ [ev]), wrapper.
      split; [|done]. by rewrite <- app_assoc.
Qed.

End WriterFacts.

(** ** The calls of the writer *)

Lemma fileState_snoc tr e : fileState (tr ++ [e]) = after (fileState tr) e.
Proof. unfold fileState. by rewrite fold_left_app. Qed.

Lemma written_snoc tr e :
  written (tr ++ [e]) =
  written tr ++ match e.1 with
                | CallWritePacket _ _ ci data => [{| ci := ci; data := data |}]
                | _ => []
                end.
Proof. unfold written. rewrite omap_app. cbn. by destruct (e.1). Qed.

Lemma disciplined_nil gz cur : disciplined gz cur [].
Proof. by intros n c a. Qed.

Lemma disciplined_snoc gz cur tr c a :
  disciplined gz cur tr → allowed gz cur (fileState tr) c →
  disciplined gz cur (tr ++ [(c, a)]).
Proof.
  intros Htr Hc n c' a' Hn.
  destruct (decide (n < length tr)%nat) as [Hlt|Hge].
  - rewrite lookup_app_l in Hn by done.
    rewrite take_app_le by lia. by apply (Htr n c' a').
  - assert (n = length tr) as ->.
    { apply lookup_lt_Some in Hn. rewrite length_app in Hn. cbn in Hn. lia. }
    rewrite lookup_app_r, Nat.sub_diag in Hn by done. injection Hn as <- <-.
    by rewrite take_app_length.
Qed.

Lemma record_recorded gz cur c (r : Recorder) :
  disciplined gz cur (calls r) → allowed gz cur (fileState (calls r)) c →
  let a := (record c r).1 in
  let r' := (record c r).2 in
  disciplined gz cur (calls r') ∧
  fileState (calls r') = after (fileState (calls r)) (c, a) ∧
  written (calls r') =
    written (calls r) ++ match c with
                         | CallWritePacket _ _ ci data => [{| ci := ci; data := data |}]
                         | _ => []
                         end.
Proof.
  intros Htr Hc a r'. unfold a, r', record. cbn [fst snd calls]. split_and!.
  - by apply disciplined_snoc.
  - by rewrite fileState_snoc.
  - by rewrite written_snoc.
Qed.

(** One recorded call: its effect on the three facts, with the call
    [allowed] in the state [Hst] gives. *)
Ltac recorded gz cur r Hst Htr' Hst' Hw' a' r' :=
  match goal with |- context [record ?c r] =>
    destruct (record_recorded gz cur c r) as (Htr' & Hst' & Hw');
      [done|by rewrite Hst|];
    destruct (record c r) as [a' r']
  end;
  rewrite Hst in Hst'; cbn [fst snd after] in *; rewrite ?app_nil_r in Hw'.

Section Recorded.
Variable cfg : Config.
Variable tmp out : string.

Lemma renamePcap_recorded now (r : Recorder) :
  disciplined (writeCompressed cfg) (currentName cfg tmp) (calls r) →
  fileState (calls r) = Closed →
  let r' := (renamePcap cfg now tmp out r).1.2 in
  disciplined (writeCompressed cfg) (currentName cfg tmp) (calls r') ∧
  fileState (calls r') = Closed ∧
  written (calls r') = written (calls r).
Proof.
  unfold renamePcap, currentName. cbn [MkdirAll Rename recorderFileSystem].
  destruct (writeCompressed cfg); intros Htr Hst.
  - recorded true (tmp +:+ ".gz") r Hst Htr1 Hst1 Hw1 a1 r1.
    destruct a1 as [e1|]; [done|].
    recorded true (tmp +:+ ".gz") r1 Hst1 Htr2 Hst2 Hw2 a2 r2.
    assert (fileState (calls r2) = Closed) as Hst2' by (by destruct a2).
    destruct a2 as [e2|]; [destruct (negb (IsNotExist e2))|]; cbn [fst snd].
    all: by rewrite Hw2, Hw1.
  - recorded false tmp r Hst Htr1 Hst1 Hw1 a1 r1.
    destruct a1 as [e1|]; [done|].
    recorded false tmp r1 Hst1 Htr2 Hst2 Hw2 a2 r2.
    assert (fileState (calls r2) = Closed) as Hst2' by (by destruct a2).
    destruct a2 as [e2|]; [destruct (negb (IsNotExist e2))|]; cbn [fst snd].
    all: by rewrite Hw2, Hw1.
Qed.

Lemma openPcap_recorded (r : Recorder) :
  disciplined (writeCompressed cfg) (currentName cfg tmp) (calls r) →
  fileState (calls r) = Closed →
  let r' := (openPcap cfg tmp r).1.2 in
  disciplined (writeCompressed cfg) (currentName cfg tmp) (calls r') ∧
  written (calls r') = written (calls r) ∧
  match (openPcap cfg tmp r).1.1 with
  | inl _ => fileState (calls r') = Closed
  | inr wrapper =>
      fileState (calls r') = Open (fileOf wrapper) ∧
      wrapper = if writeCompressed cfg then gzippedPcapWrapper (fileOf wrapper)
                else regularPcapWrapper (fileOf wrapper)
  end.
Proof.
  unfold openPcap, currentName.
  cbn [Create WriteFileHeader recorderPcapIO]. unfold recordCreate.
  destruct (writeCompressed cfg); intros Htr Hst.
  - recorded true (tmp +:+ ".gz") r Hst Htr1 Hst1 Hw1 a1 r1.
    destruct a1 as [e1|]; cbn [fst snd]; [done|].
    recorded true (tmp +:+ ".gz") r1 Hst1 Htr2 Hst2 Hw2 a2 r2.
    cbn [fileOf]. by rewrite Hw2, Hw1.
  - recorded false tmp r Hst Htr1 Hst1 Hw1 a1 r1.
    destruct a1 as [e1|]; cbn [fst snd]; [done|].
    recorded false tmp r1 Hst1 Htr2 Hst2 Hw2 a2 r2.
    cbn [fileOf]. by rewrite Hw2, Hw1.
Qed.

Lemma Close_recorded wrapper (r : Recorder) :
  disciplined (writeCompressed cfg) (currentName cfg tmp) (calls r) →
  fileState (calls r) = Open (fileOf wrapper) →
  wrapper = (if writeCompressed cfg then gzippedPcapWrapper (fileOf wrapper)
             else regularPcapWrapper (fileOf wrapper)) →
  let r' := (pcapWrapper_Close wrapper r).2 in
  disciplined (writeCompressed cfg) (currentName cfg tmp) (calls r') ∧
  fileState (calls r') = Closed ∧
  written (calls r') = written (calls r).
Proof.
  unfold pcapWrapper_Close, currentName.
  cbn [fileClose gzipClose recorderPcapIO].
  destruct (writeCompressed cfg); intros Htr Hst ->; cbn [fileOf] in Hst.
  - set (f := fileOf wrapper) in *. clearbody f.
    recorded true (tmp +:+ ".gz") r Hst Htr1 Hst1 Hw1 a1 r1.
    recorded true (tmp +:+ ".gz") r1 Hst1 Htr2 Hst2 Hw2 a2 r2.
    by rewrite Hw2, Hw1.
  - set (f := fileOf wrapper) in *. clearbody f.
    recorded false tmp r Hst Htr1 Hst1 Hw1 a1 r1.
    done.
Qed.

Lemma WritePacket_recorded wrapper ci data (r : Recorder) :
  disciplined (writeCompressed cfg) (currentName cfg tmp) (calls r) →
  fileState (calls r) = Open (fileOf wrapper) →
  wrapper = (if writeCompressed cfg then gzippedPcapWrapper (fileOf wrapper)
             else regularPcapWrapper (fileOf wrapper)) →
  let r' := (pcapWrapper_WritePacket wrapper ci data r).2 in
  disciplined (writeCompressed cfg) (currentName cfg tmp) (calls r') ∧
  fileState (calls r') = Open (fileOf wrapper) ∧
  written (calls r') = written (calls r) ++ [{| ci := ci; data := data |}].
Proof.
  unfold pcapWrapper_WritePacket, currentName.
  cbn [WritePacket recorderPcapIO].
  destruct (writeCompressed cfg); intros Htr Hst ->; cbn [fileOf] in *.
  - set (f := fileOf wrapper) in *. clearbody f.
    recorded true (tmp +:+ ".gz") r Hst Htr1 Hst1 Hw1 a1 r1.
    done.
  - set (f := fileOf wrapper) in *. clearbody f.
    recorded false tmp r Hst Htr1 Hst1 Hw1 a1 r1.
    done.
Qed.

End Recorded.

Lemma framesOf_app events more : framesOf (events ++ more) = framesOf events ++ framesOf more.
Proof. unfold framesOf. by rewrite omap_app. Qed.

Section RecordedRun.
Variable Atoi : string → ToyError + Z.
Variable cfg : Config.
Variables iface out count : string.
Variable t0 : LocalTime.

Lemma mainStart_recorded answers :
  let p := mainStart Atoi cfg iface out count t0 (newRecorder answers) in
  writerInv (writeCompressed cfg) (currentName cfg (iface +:+ "_current.pcap.tmp")) p ∧
  written (calls (p_fs p)) = [].
Proof.
  unfold mainStart, writerInv.
  destruct (mustAtoiWithDefault _ _ _) as [err|n]; cbn [p_fs p_status].
  { split; [|done]. split; [apply disciplined_nil|done]. }
  destruct (renamePcap_recorded cfg (iface +:+ "_current.pcap.tmp") out t0
              (newRecorder answers)) as (Htr1 & Hst1 & Hw1);
    [apply disciplined_nil|done|].
  destruct (renamePcap _ _ _ _ _) as [[res r1] moved]. cbn [fst snd] in *.
  destruct (openPcap_recorded cfg (iface +:+ "_current.pcap.tmp") r1)
    as (Htr2 & Hw2 & Hst2); [done..|].
  destruct (openPcap _ _ _) as [[[err|wrapper] r2] opening]; cbn [fst snd] in *.
  all: cbn [p_fs p_status]; by rewrite Hw2, Hw1.
Qed.

Lemma mainStep_recorded (p : Process Recorder ToyError nat) ev :
  let cur := currentName cfg (iface +:+ "_current.pcap.tmp") in
  let p' := mainStep cfg (iface +:+ "_current.pcap.tmp") out p ev in
  writerInv (writeCompressed cfg) cur p →
  writerInv (writeCompressed cfg) cur p' ∧
  written (calls (p_fs p')) =
    written (calls (p_fs p)) ++
    match p_status p with
    | Running _ => framesOf [ev]
    | _ => []
    end.
Proof.
  intros cur p'. unfold p', cur, writerInv, mainStep. intros [Htr Hst].
  destruct (p_status p) as [wrapper|msg err|code] eqn:Hp; rewrite ?Hp;
    [|by rewrite app_nil_r..].
  destruct Hst as [Hst Hwr]. destruct ev as [pcf|now|now].
  - destruct (WritePacket_recorded cfg (iface +:+ "_current.pcap.tmp") wrapper
                (ci pcf) (data pcf) (p_fs p)) as (Htr1 & Hst1 & Hw1); [done..|].
    destruct (pcapWrapper_WritePacket _ _ _ _) as [[err|] r1]; cbn [fst snd] in *.
    + destruct (Close_recorded cfg (iface +:+ "_current.pcap.tmp") wrapper r1)
        as (Htr2 & Hst2 & Hw2); [done..|].
      destruct (pcapWrapper_Close _ _) as [res r2]; cbn [fst snd p_fs p_status] in *.
      rewrite Hw2, Hw1. by destruct pcf.
    + cbn [p_fs p_status]. rewrite Hw1. by destruct pcf.
  - destruct (Close_recorded cfg (iface +:+ "_current.pcap.tmp") wrapper (p_fs p))
      as (Htr1 & Hst1 & Hw1); [done..|].
    destruct (pcapWrapper_Close _ _) as [[err|] r1]; cbn [fst snd p_fs p_status] in *.
    { by rewrite Hw1, app_nil_r. }
    destruct (renamePcap_recorded cfg (iface +:+ "_current.pcap.tmp") out now r1)
      as (Htr2 & Hst2 & Hw2); [done..|].
    destruct (renamePcap _ _ _ _ _) as [[[err|] r2] moved];
      cbn [fst snd p_fs p_status] in *.
    { by rewrite Hw2, Hw1, app_nil_r. }
    destruct (openPcap_recorded cfg (iface +:+ "_current.pcap.tmp") r2)
      as (Htr3 & Hw3 & Hst3); [done..|].
    destruct (openPcap _ _ _) as [[[err|w] r3] opening];
      cbn [fst snd p_fs p_status] in *.
    all: by rewrite Hw3, Hw2, Hw1, app_nil_r.
  - destruct (Close_recorded cfg (iface +:+ "_current.pcap.tmp") wrapper (p_fs p))
      as (Htr1 & Hst1 & Hw1); [done..|].
    destruct (pcapWrapper_Close _ _) as [[err|] r1]; cbn [fst snd p_fs p_status] in *.
    { by rewrite Hw1, app_nil_r. }
    destruct (renamePcap_recorded cfg (iface +:+ "_current.pcap.tmp") out now r1)
      as (Htr2 & Hst2 & Hw2); [done..|].
    destruct (renamePcap _ _ _ _ _) as [[[err|] r2] moved];
      cbn [fst snd p_fs p_status] in *.
    all: by rewrite Hw2, Hw1, app_nil_r.
Qed.

Lemma main_recorded answers events :
  writerInv (writeCompressed cfg) (currentName cfg (iface +:+ "_current.pcap.tmp"))
    (main Atoi cfg iface out count t0 (newRecorder answers) events).
Proof.
  induction events as [|ev events IH] using rev_ind.
  - apply mainStart_recorded.
  - rewrite main_snoc. by apply mainStep_recorded.
Qed.

(** X13: [main] makes each call on the output in a state that allows
    it. It writes a packet only to the file it has created last, after
    the call that writes the header of that file and before the file
    is closed; it creates and renames only the current file, and only
    while no file is open; with compression it closes the gzip stream
    and then, whatever that returned, the file. *)
Theorem calls_in_order answers events n c a :
  let tr := calls (p_fs (main Atoi cfg iface out count t0 (newRecorder answers) events)) in
  tr !! n = Some (c, a) →
  allowed (writeCompressed cfg) (currentName cfg (iface +:+ "_current.pcap.tmp"))
    (fileState (take n tr)) c.
Proof. intros tr. apply (main_recorded answers events). Qed.

(** X14: while the program runs, the file of its writer is open with
    its header written; when it has ended, by [log.Fatal] or by
    [os.Exit], no file it has created is left open. *)
Theorem output_closed_at_end answers events :
  let p := main Atoi cfg iface out count t0 (newRecorder answers) events in
  match p_status p with
  | Running wrapper => fileState (calls (p_fs p)) = Open (fileOf wrapper)
  | _ => fileState (calls (p_fs p)) = Closed
  end.
Proof.
  intros p. destruct (main_recorded answers events) as [_ Hst]. fold p in Hst.
  destruct (p_status p); [by destruct Hst|done..].
Qed.

(** X15: the frames the program passes to [WritePacket] are the frames
    of the events it has handled, each once and in the order of the
    events; while it runs they are the frames of all the events. *)
Theorem frames_written_in_order answers events :
  let p := main Atoi cfg iface out count t0 (newRecorder answers) events in
  (∃ n, (n <= length events)%nat ∧
        written (calls (p_fs p)) = framesOf (take n events)) ∧
  (∀ wrapper, p_status p = Running wrapper →
     written (calls (p_fs p)) = framesOf events).
Proof.
  induction events as [|ev events IH] using rev_ind.
  - intros p. destruct (mainStart_recorded answers) as [_ Hw]. unfold p, main.
    cbn [mainLoop fold_left]. unfold mainLoop. cbn [fold_left]. rewrite Hw.
    split; [by exists 0%nat|done].
  - cbn zeta in *. rewrite main_snoc.
    destruct (mainStep_recorded
                (main Atoi cfg iface out count t0 (newRecorder answers) events) ev)
      as [_ Hw]; [apply main_recorded|].
    destruct IH as [(n & Hn & Hpre) Hrun].
    destruct (p_status (main Atoi cfg iface out count t0 (newRecorder answers) events))
      as [wrapper|msg err|code] eqn:Hst.
    + rewrite (Hrun wrapper eq_refl) in Hw. rewrite <- framesOf_app in Hw.
      split; [|done]. exists (length (events ++ [ev])). by rewrite take_ge.
    + rewrite app_nil_r in Hw. rewrite mainStep_ended in * by (intros w; by rewrite Hst).
      split; [|by rewrite Hst]. exists n. rewrite length_app, take_app_le by lia.
      split; [lia|done].
    + rewrite app_nil_r in Hw. rewrite mainStep_ended in * by (intros w; by rewrite Hst).
      split; [|by rewrite Hst]. exists n. rewrite length_app, take_app_le by lia.
      split; [lia|done].
Qed.

End RecordedRun.

(** X12 on the run of the writer. *)
Lemma exit_only_on_signal_witness :
  p_status (main toyAtoi gzConfig "eth0" "out" EmptyString sampleTime
              (newRecorder sampleAnswers) sampleEvents) = Exited 0 ∧
  (0 = 0 ∧
   ∃ pre now post wrapper,
     sampleEvents = pre ++ EvSignal now :: post ∧
     p_status (main toyAtoi gzConfig "eth0" "out" EmptyString sampleTime
                 (newRecorder sampleAnswers) pre) = Running wrapper).
Proof.
  split; [vm_compute; reflexivity|].
  apply (exit_only_on_signal toyAtoi gzConfig "out" "eth0" EmptyString sampleTime
           (newRecorder sampleAnswers) sampleEvents 0).
  vm_compute. reflexivity.
Defined.

(** X13 on the run of the writer: the second frame goes to the file
    created at the rotation. *)
Lemma calls_in_order_witness :
  let tr := calls (p_fs (main toyAtoi gzConfig "eth0" "out" EmptyString sampleTime
                           (newRecorder sampleAnswers) sampleEvents)) in
  let c := CallWritePacket true 9%nat (in_ci (tcpFrame 2000 60)) (in_data (tcpFrame 2000 60)) in
  tr !! 11%nat = Some (c, None) ∧
  allowed (writeCompressed gzConfig) (currentName gzConfig ("eth0" +:+ "_current.pcap.tmp"))
    (fileState (take 11 tr)) c.
Proof.
  intros tr c. split; [vm_compute; reflexivity|].
  apply (calls_in_order toyAtoi gzConfig "eth0" "out" EmptyString sampleTime
           sampleAnswers sampleEvents 11%nat c None).
  vm_compute. reflexivity.
Defined.

(** X15 on the first three events of the run. *)
Lemma frames_written_in_order_witness :
  let p := main toyAtoi gzConfig "eth0" "out" EmptyString sampleTime
             (newRecorder sampleAnswers) (take 3 sampleEvents) in
  written (calls (p_fs p)) = framesOf (take 3 sampleEvents).
Proof.
  intros p.
  destruct (frames_written_in_order toyAtoi gzConfig "eth0" "out" EmptyString sampleTime
              sampleAnswers (take 3 sampleEvents)) as [_ Hrun].
  apply (Hrun (gzippedPcapWrapper 9%nat)). vm_compute. reflexivity.
Defined.
